(** * Odoo CRM client and lead-capture assistant: model and properties

    A shallow embedding of [odoo_api_demo.py] (class [OdooAPI]) and of the
    extraction block of [chatbot.py].

    Conventions of the embedding:
    - Python objects are terms of [Py.value]; a tuple is marshalled like a
      list on both wire protocols and is a [VList] here.
    - A Python function that may raise is a computation returning an
      [outcome]; the [try]/[except Exception] blocks of the source are the
      [try_except] combinator.  [exn] ranges over the subclasses of
      [Exception]; [KeyboardInterrupt] and [SystemExit] are outside the model.
    - The remote services are an oracle ([Net.transport]) that answers each
      request from the request itself and the log of all earlier requests.
    - Calls to [self.logger] write to a log file only; they are dropped,
      except for the sub-expressions of their arguments that can raise
      ([len(...)], [result['error']]), which are kept in place. *)

From Stdlib Require Import ZArith String Ascii List Bool Lia.
From stdpp Require Import gmap strings list fin_maps.

Set Warnings "-register-all".

Local Open Scope Z_scope.

(** ** Python values *)

Module Py.

Inductive value :=
| VNone
| VBool (b : bool)
| VInt (z : Z)
| VFloat (lit : string)               (* a float, kept as its decimal literal *)
| VStr (s : string)
| VList (l : list value)
| VDict (d : list (string * value)).  (* insertion-ordered, keys unique *)

Record exn := Exn { exn_class : string; exn_msg : string }.

Inductive outcome (A : Type) :=
| Ret (a : A)
| Raise (e : exn).
Arguments Ret {A} a.
Arguments Raise {A} e.

Definition TypeError (msg : string) : exn := Exn "TypeError" msg.
Definition KeyError (msg : string) : exn := Exn "KeyError" msg.
Definition IndexError (msg : string) : exn := Exn "IndexError" msg.
Definition AttributeError (msg : string) : exn := Exn "AttributeError" msg.

(** [d[k] = v]: an existing key keeps its position, a new key goes last. *)
Fixpoint dict_set (k : string) (v : value) (d : list (string * value))
  : list (string * value) :=
  match d with
  | [] => [(k, v)]
  | (k', v') :: d' =>
      if String.eqb k k' then (k, v) :: d' else (k', v') :: dict_set k v d'
  end.

Fixpoint dict_get (k : string) (d : list (string * value)) : option value :=
  match d with
  | [] => None
  | (k', v') :: d' => if String.eqb k k' then Some v' else dict_get k d'
  end.

(** The mantissa of a float literal is what precedes the exponent mark. *)
Fixpoint mantissa (s : string) : string :=
  match s with
  | EmptyString => EmptyString
  | String c s' =>
      if (Ascii.eqb c "e" || Ascii.eqb c "E")%char then EmptyString
      else String c (mantissa s')
  end.

Fixpoint all_zero (s : string) : bool :=
  match s with
  | EmptyString => true
  | String c s' =>
      (Ascii.eqb c "0" || Ascii.eqb c "." || Ascii.eqb c "-"
       || Ascii.eqb c "+")%char && all_zero s'
  end.

(** [bool(v)], the test behind [if v:] and [not v]. *)
Definition truthy (v : value) : bool :=
  match v with
  | VNone => false
  | VBool b => b
  | VInt z => negb (Z.eqb z 0)
  | VFloat lit => negb (all_zero (mantissa lit))
  | VStr s => negb (String.eqb s "")
  | VList l => match l with [] => false | _ => true end
  | VDict d => match d with [] => false | _ => true end
  end.

(** A string is kept as the bytes of its UTF-8 encoding.  The number of
    bytes of the character whose first byte is [c]. *)
Definition char_width (c : ascii) : nat :=
  let n := nat_of_ascii c in
  if (n <? 192)%nat then 1%nat
  else if (n <? 224)%nat then 2%nat
  else if (n <? 240)%nat then 3%nat
  else 4%nat.

Fixpoint take_bytes (k : nat) (s : string) : string :=
  match k, s with
  | S k', String c s' => String c (take_bytes k' s')
  | _, _ => EmptyString
  end.

(** [s[0]] for the string whose first byte is [c] and whose other bytes
    are [s]: its first character, all the bytes of it. *)
Definition first_char (c : ascii) (s : string) : string :=
  String c (take_bytes (char_width c - 1) s).

(** The number of characters of a string, [skip] bytes of which belong to
    a character already counted. *)
Fixpoint count_chars (skip : nat) (s : string) : nat :=
  match s with
  | EmptyString => O
  | String c s' =>
      match skip with
      | S k => count_chars k s'
      | O => S (count_chars (char_width c - 1) s')
      end
  end.

(** [len(v)] *)
Definition py_len (v : value) : outcome Z :=
  match v with
  | VStr s => Ret (Z.of_nat (count_chars 0 s))
  | VList l => Ret (Z.of_nat (length l))
  | VDict d => Ret (Z.of_nat (length d))
  | VNone => Raise (TypeError "object of type 'NoneType' has no len()")
  | VBool _ => Raise (TypeError "object of type 'bool' has no len()")
  | VInt _ => Raise (TypeError "object of type 'int' has no len()")
  | VFloat _ => Raise (TypeError "object of type 'float' has no len()")
  end.

Fixpoint is_prefix (p s : string) : bool :=
  match p, s with
  | EmptyString, _ => true
  | String a p', String b s' => Ascii.eqb a b && is_prefix p' s'
  | String _ _, EmptyString => false
  end.

Fixpoint is_substring (p s : string) : bool :=
  is_prefix p s ||
  match s with
  | EmptyString => false
  | String _ s' => is_substring p s'
  end.

Definition is_str (k : string) (v : value) : bool :=
  match v with VStr s => String.eqb k s | _ => false end.

(** [k in v] for a string [k] *)
Definition py_contains (k : string) (v : value) : outcome bool :=
  match v with
  | VDict d => Ret (match dict_get k d with Some _ => true | None => false end)
  | VList l => Ret (existsb (is_str k) l)
  | VStr s => Ret (is_substring k s)
  | _ => Raise (TypeError "argument is not iterable")
  end.

(** [v[k]] for a string [k] *)
Definition py_getitem (v : value) (k : string) : outcome value :=
  match v with
  | VDict d =>
      match dict_get k d with
      | Some x => Ret x
      | None => Raise (KeyError k)
      end
  | VList _ => Raise (TypeError "list indices must be integers or slices, not str")
  | VStr _ => Raise (TypeError "string indices must be integers, not 'str'")
  | _ => Raise (TypeError "object is not subscriptable")
  end.

(** [v[0]] *)
Definition py_first (v : value) : outcome value :=
  match v with
  | VList (x :: _) => Ret x
  | VList [] => Raise (IndexError "list index out of range")
  | VStr (String c s) => Ret (VStr (first_char c s))
  | VStr EmptyString => Raise (IndexError "string index out of range")
  | VDict _ => Raise (KeyError "0")
  | _ => Raise (TypeError "object is not subscriptable")
  end.

(** [v.get(k, default)] *)
Definition py_get (v : value) (k : string) (default : value) : outcome value :=
  match v with
  | VDict d => Ret (match dict_get k d with Some x => x | None => default end)
  | _ => Raise (AttributeError "object has no attribute 'get'")
  end.

(** [v + s] for a string [s] *)
Definition py_add_str (v : value) (s : string) : outcome value :=
  match v with
  | VStr a => Ret (VStr (a +:+ s))
  | _ => Raise (TypeError "unsupported operand type(s) for +")
  end.

(** [s.rstrip('/')] *)
Fixpoint rstrip_slash (s : string) : string :=
  match s with
  | EmptyString => EmptyString
  | String c s' =>
      match rstrip_slash s' with
      | EmptyString => if Ascii.eqb c "/" then EmptyString else String c EmptyString
      | r => String c r
      end
  end.

End Py.

(** ** Computations with state and exceptions

    [M S A] is a Python statement sequence run on a state [S]: it ends with
    a value or with a raised exception, and the state changes made before
    the exception stay (nothing is rolled back). *)

Module Eff.
Import Py.

Definition M (S A : Type) : Type := S -> outcome A * S.

Definition ret {S A} (a : A) : M S A := fun st => (Ret a, st).

Definition raise {S A} (e : exn) : M S A := fun st => (Raise e, st).

Definition lift {S A} (o : outcome A) : M S A := fun st => (o, st).

Definition bind {S A B} (m : M S A) (k : A -> M S B) : M S B :=
  fun st =>
    match m st with
    | (Ret a, st') => k a st'
    | (Raise e, st') => (Raise e, st')
    end.

(** [try: body / except Exception as e: handler e] *)
Definition try_except {S A} (body : M S A) (handler : exn -> M S A) : M S A :=
  fun st =>
    match body st with
    | (Ret a, st') => (Ret a, st')
    | (Raise e, st') => handler e st'
    end.

Definition get {S} : M S S := fun st => (Ret st, st).

Definition modify {S} (f : S -> S) : M S unit := fun st => (Ret tt, f st).

(** [for x in xs: acc = body acc x], the accumulator being the local
    variable the loop body updates. *)
Fixpoint for_each {S A Acc} (xs : list A) (acc : Acc) (body : Acc -> A -> M S Acc)
  : M S Acc :=
  match xs with
  | [] => ret acc
  | x :: xs' => bind (body acc x) (fun acc' => for_each xs' acc' body)
  end.

End Eff.

Notation "'let!' x ':=' m 'in' k" := (Eff.bind m (fun x => k))
  (at level 10, x name, m at level 100, k at level 200).
Notation "'do!' m 'in' k" := (Eff.bind m (fun _ => k))
  (at level 10, m at level 100, k at level 200).

(** ** The remote services *)

Module Net.
Import Py.

(** A request the code makes: a method call on an XML-RPC proxy, or a
    POST handed to [requests].  The JSON body of a POST is kept as the
    payload object that [json.dumps] serialises; its Content-Type header,
    a constant, is not recorded. *)
Inductive call :=
| XmlRpc (uri method : string) (params : list value)
| HttpPost (url : string) (payload : value) (cookies : option (list (string * string))).

Record response := Response {
  status_code : Z;
  json : outcome value;                 (* response.json() *)
  cookies : list (string * string)      (* response.cookies *)
}.

(** What the environment answers.  [server_proxy uri] is the constructor
    [xmlrpc.client.ServerProxy(uri)], which raises on an unsupported URI and
    opens no connection; the other fields answer a request given the log of
    the requests made before it. *)
Record transport := Transport {
  server_proxy : string -> outcome unit;
  xmlrpc_call : list call -> string -> string -> list value -> outcome value;
  requests_post : list call -> string -> value -> option (list (string * string))
                  -> outcome response;
  time_time : list call -> Z
}.

Definition OverflowError (msg : string) : exn := Exn "OverflowError" msg.

(** The exception [xmlrpc.client.dumps] raises on the value [v], for a
    proxy built without [allow_none]: None cannot be marshalled and an
    int has to fit 32 bits; a list and a dict are marshalled element by
    element, in order, and the first element that fails decides. *)
Fixpoint marshal_error (v : value) : option exn :=
  match v with
  | VNone => Some (TypeError "cannot marshal None unless allow_none is enabled")
  | VBool _ => None
  | VInt z =>
      if (z >? 2147483647) || (z <? -2147483648)
      then Some (OverflowError "int exceeds XML-RPC limits") else None
  | VFloat _ => None
  | VStr _ => None
  | VList xs =>
      (fix each (xs : list value) : option exn :=
         match xs with
         | [] => None
         | x :: xs' =>
             match marshal_error x with Some e => Some e | None => each xs' end
         end) xs
  | VDict d =>
      (fix each (d : list (string * value)) : option exn :=
         match d with
         | [] => None
         | (_, x) :: d' =>
             match marshal_error x with Some e => Some e | None => each d' end
         end) d
  end.

Definition CookieConflictError (name : string) : exn :=
  Exn "CookieConflictError" ("There are multiple cookies with name, '" +:+ name +:+ "'").

(** The search of the jar for the one cookie called [name]: the value of
    the cookie found so far is [found]; a second cookie of that name is a
    conflict. *)
Fixpoint find_no_duplicates (name : string) (jar : list (string * string))
    (found : option string) : outcome (option string) :=
  match jar with
  | [] => Ret found
  | (k, v) :: jar' =>
      if String.eqb name k then
        match found with
        | Some _ => Raise (CookieConflictError name)
        | None => find_no_duplicates name jar' (Some v)
        end
      else find_no_duplicates name jar' found
  end.

(** [jar.get(name)] of a [RequestsCookieJar]: the value of the cookie of
    that name, None when there is none or its value is empty, and a
    [CookieConflictError] when the jar holds two cookies of that name. *)
Definition cookie_get (name : string) (jar : list (string * string))
  : outcome (option string) :=
  match find_no_duplicates name jar None with
  | Ret (Some v) => if String.eqb v "" then Ret None else Ret (Some v)
  | Ret None => Ret None
  | Raise e => Raise e
  end.

End Net.

(** ** [odoo_api_demo.py]: class [OdooAPI] *)

Module Odoo.
Import Py Eff Net.

Record session := Session {
  url : string;
  db : string;
  username : string;
  password : string;
  uid : value;
  xmlrpc_common : option string;   (* a ServerProxy, named by its URI *)
  xmlrpc_models : option string;
  jsonrpc_url : string;
  session_id : option string
}.

(** [OdooAPI.__init__] *)
Definition __init__ (url db username password : string) : session :=
  let url := rstrip_slash url in
  {| url := url; db := db; username := username; password := password;
     uid := VNone; xmlrpc_common := None; xmlrpc_models := None;
     jsonrpc_url := url +:+ "/jsonrpc"; session_id := None |}.

(** The object [self] together with the log of the requests made so far. *)
Record state := State { self : session; net : list call }.

Definition set_uid (v : value) (s : session) : session :=
  {| url := url s; db := db s; username := username s; password := password s;
     uid := v; xmlrpc_common := xmlrpc_common s; xmlrpc_models := xmlrpc_models s;
     jsonrpc_url := jsonrpc_url s; session_id := session_id s |}.

Definition set_xmlrpc_common (p : option string) (s : session) : session :=
  {| url := url s; db := db s; username := username s; password := password s;
     uid := uid s; xmlrpc_common := p; xmlrpc_models := xmlrpc_models s;
     jsonrpc_url := jsonrpc_url s; session_id := session_id s |}.

Definition set_xmlrpc_models (p : option string) (s : session) : session :=
  {| url := url s; db := db s; username := username s; password := password s;
     uid := uid s; xmlrpc_common := xmlrpc_common s; xmlrpc_models := p;
     jsonrpc_url := jsonrpc_url s; session_id := session_id s |}.

Definition set_session_id (c : option string) (s : session) : session :=
  {| url := url s; db := db s; username := username s; password := password s;
     uid := uid s; xmlrpc_common := xmlrpc_common s; xmlrpc_models := xmlrpc_models s;
     jsonrpc_url := jsonrpc_url s; session_id := c |}.

Definition get_self : M state session := fun st => (Ret (self st), st).

Definition assign (f : session -> session) : M state unit :=
  modify (fun st => {| self := f (self st); net := net st |}).

(** [cookies = {}], then [cookies['session_id'] = self.session_id] under
    the guard [if self.session_id:]. *)
Definition session_cookies (s : session) : list (string * string) :=
  match session_id s with
  | Some c => if negb (String.eqb c "") then [("session_id", c)] else []
  | None => []
  end.

Inductive protocol := XmlRpcP | JsonRpcP.

Section Client.

Variable T : transport.

(** [xmlrpc.client.ServerProxy(uri)] *)
Definition ServerProxy (uri : string) : M state string :=
  fun st =>
    match server_proxy T uri with
    | Ret _ => (Ret uri, st)
    | Raise e => (Raise e, st)
    end.

(** [proxy.method(p1, ..., pn)] for [params = [p1; ...; pn]] *)
Definition proxy_call (proxy method : string) (params : list value) : M state value :=
  fun st =>
    (xmlrpc_call T (net st) proxy method params,
     {| self := self st; net := (net st ++ [XmlRpc proxy method params])%list |}).

(** [requests.post(url, data=json.dumps(payload), headers=..., cookies=cookies)] *)
Definition post (url : string) (payload : value)
    (cookies : option (list (string * string))) : M state response :=
  fun st =>
    (requests_post T (net st) url payload cookies,
     {| self := self st; net := (net st ++ [HttpPost url payload cookies])%list |}).

(** [int(time.time())] *)
Definition now : M state Z := fun st => (Ret (time_time T (net st)), st).

Definition xmlrpc_authenticate : M state bool :=
  try_except
    (let! s := get_self in
     let! common := ServerProxy (url s +:+ "/xmlrpc/2/common") in
     do! assign (set_xmlrpc_common (Some common)) in
     let! r := proxy_call common "authenticate"
            [VStr (db s); VStr (username s); VStr (password s); VDict []] in
     do! assign (set_uid r) in
     if truthy r then
       let! models := ServerProxy (url s +:+ "/xmlrpc/2/object") in
       do! assign (set_xmlrpc_models (Some models)) in
       ret true
     else
       ret false)
    (fun _ => ret false).

Definition login_payload (s : session) : value :=
  VDict [("jsonrpc", VStr "2.0");
         ("method", VStr "call");
         ("params", VDict [("service", VStr "common");
                           ("method", VStr "login");
                           ("args", VList [VStr (db s); VStr (username s);
                                           VStr (password s)])]);
         ("id", VInt 1)].

Definition jsonrpc_authenticate : M state bool :=
  try_except
    (let! s := get_self in
     let! response := post (jsonrpc_url s) (login_payload s) None in
     if Z.eqb (status_code response) 200 then
       let! result := lift (json response) in
       let! has := lift (py_contains "result" result) in
       let! ok := (if has then let! r := lift (py_getitem result "result") in ret (truthy r)
              else ret false) in
       if ok then
         let! r := lift (py_getitem result "result") in
         do! assign (set_uid r) in
         let! cookie := lift (cookie_get "session_id" (cookies response)) in
         do! assign (set_session_id cookie) in
         ret true
       else
         ret false
     else
       ret false)
    (fun _ => ret false).

Definition xmlrpc_execute (model method : string) (args : list value) : M state value :=
  try_except
    (let! s := get_self in
     let! authenticated :=
       (if negb (truthy (uid s)) || negb (bool_decide (is_Some (xmlrpc_models s)))
        then xmlrpc_authenticate else ret true) in
     if authenticated then
       let! s := get_self in
       match xmlrpc_models s with
       | Some models =>
           proxy_call models "execute_kw"
             [VStr (db s); uid s; VStr (password s); VStr model; VStr method; VList args]
       | None => raise (AttributeError "'NoneType' object has no attribute 'execute_kw'")
       end
     else
       ret VNone)
    (fun _ => ret VNone).

Definition execute_payload (s : session) (model method : string) (args : list value)
    (id : Z) : value :=
  VDict [("jsonrpc", VStr "2.0");
         ("method", VStr "call");
         ("params", VDict [("service", VStr "object");
                           ("method", VStr "execute_kw");
                           ("args", VList [VStr (db s); uid s; VStr (password s);
                                           VStr model; VStr method; VList args])]);
         ("id", VInt id)].

Definition jsonrpc_execute (model method : string) (args : list value) : M state value :=
  try_except
    (let! s := get_self in
     let! authenticated := (if negb (truthy (uid s)) then jsonrpc_authenticate else ret true) in
     if authenticated then
       let! s := get_self in
       let! id := now in
       let cookies := session_cookies s in
       let! response := post (jsonrpc_url s) (execute_payload s model method args id)
                     (Some cookies) in
       if Z.eqb (status_code response) 200 then
         let! result := lift (json response) in
         let! has_result := lift (py_contains "result" result) in
         if has_result then
           lift (py_getitem result "result")
         else
           let! has_error := lift (py_contains "error" result) in
           if has_error then
             do! lift (py_getitem result "error") in   (* formatted into the log line *)
             ret VNone
           else
             ret VNone                               (* falls off the end *)
       else
         ret VNone
     else
       ret VNone)
    (fun _ => ret VNone).

Definition execute (p : protocol) : string -> string -> list value -> M state value :=
  match p with
  | XmlRpcP => xmlrpc_execute
  | JsonRpcP => jsonrpc_execute
  end.

Definition authenticate (p : protocol) : M state bool :=
  match p with
  | XmlRpcP => xmlrpc_authenticate
  | JsonRpcP => jsonrpc_authenticate
  end.

(** *** Operations on [crm.lead]

    Every operation exists twice in the source, once per protocol; the two
    bodies differ in the execute method they call and in the text of their
    log lines only.  Here the protocol is a parameter, and the source's
    names are the two instances. *)

Definition create_lead (p : protocol) (lead_data : value) : M state value :=
  try_except
    (let! lead_id := execute p "crm.lead" "create" [VList [lead_data]] in
     ret lead_id)
    (fun _ => ret VNone).

Definition read_lead (p : protocol) (lead_id : Z) (fields : option (list value))
  : M state value :=
  try_except
    (let fields := match fields with None => [] | Some fs => fs end in
     let! lead_data :=
       execute p "crm.lead" "read"
         [VList [VInt lead_id]; VDict [("fields", VList fields)]] in
     let! found :=
       (if truthy lead_data
        then let! n := lift (py_len lead_data) in ret (Z.ltb 0 n)
        else ret false) in
     if found then lift (py_first lead_data) else ret VNone)
    (fun _ => ret VNone).

Definition update_lead (p : protocol) (lead_id : Z) (lead_data : value) : M state value :=
  try_except
    (let! result := execute p "crm.lead" "write" [VList [VInt lead_id]; lead_data] in
     ret result)
    (fun _ => ret (VBool false)).

Definition delete_lead (p : protocol) (lead_id : Z) : M state value :=
  try_except
    (let! result := execute p "crm.lead" "unlink" [VList [VInt lead_id]] in
     ret result)
    (fun _ => ret (VBool false)).

(** The keyword mapping of a search: [offset], [limit] and [order] enter it
    under the guards [if offset:], [if limit:], [if order:]. *)
Definition add_if_truthy (k : string) (v : value) (kwargs : list (string * value))
  : list (string * value) :=
  if truthy v then dict_set k v kwargs else kwargs.

Definition search_kwargs (kwargs : list (string * value)) (offset limit order : value)
  : list (string * value) :=
  add_if_truthy "order" order
    (add_if_truthy "limit" limit
       (add_if_truthy "offset" offset kwargs)).

Definition search_leads (p : protocol) (domain offset limit order : value)
  : M state value :=
  try_except
    (let kwargs := search_kwargs [] offset limit order in
     let! lead_ids := execute p "crm.lead" "search" [domain; VDict kwargs] in
     do! lift (py_len lead_ids) in                  (* formatted into the log line *)
     ret lead_ids)
    (fun _ => ret (VList [])).

Definition search_read_leads (p : protocol) (domain : value)
    (fields : option (list value)) (offset limit order : value) : M state value :=
  try_except
    (let fields := match fields with None => [] | Some fs => fs end in
     let kwargs := search_kwargs [("fields", VList fields)] offset limit order in
     let! leads := execute p "crm.lead" "search_read" [domain; VDict kwargs] in
     do! lift (py_len leads) in                     (* formatted into the log line *)
     ret leads)
    (fun _ => ret (VList [])).

(** *** Batch operations *)

Definition create_leads_batch (p : protocol) (leads_data : list value)
  : M state (list value) :=
  try_except
    (let! lead_ids :=
       for_each leads_data []
         (fun lead_ids lead_data =>
            let! lead_id := create_lead p lead_data in
            ret (if truthy lead_id then (lead_ids ++ [lead_id])%list else lead_ids)) in
     ret lead_ids)
    (fun _ => ret []).

(** [leads_updates] is a dict: its items come in insertion order and its
    keys are pairwise different. *)
Definition update_leads_batch (p : protocol) (leads_updates : list (Z * value))
  : M state (gmap Z value) :=
  try_except
    (let! results :=
       for_each leads_updates (∅ : gmap Z value)
         (fun results '(lead_id, update_data) =>
            let! success := update_lead p lead_id update_data in
            ret (<[lead_id := success]> results)) in
     ret results)
    (fun _ => ret ∅).

Definition delete_leads_batch (p : protocol) (lead_ids : list Z)
  : M state (gmap Z value) :=
  try_except
    (let! results :=
       for_each lead_ids (∅ : gmap Z value)
         (fun results lead_id =>
            let! success := delete_lead p lead_id in
            ret (<[lead_id := success]> results)) in
     ret results)
    (fun _ => ret ∅).

Definition create_lead_xmlrpc := create_lead XmlRpcP.
Definition create_lead_jsonrpc := create_lead JsonRpcP.
Definition read_lead_xmlrpc := read_lead XmlRpcP.
Definition read_lead_jsonrpc := read_lead JsonRpcP.
Definition update_lead_xmlrpc := update_lead XmlRpcP.
Definition update_lead_jsonrpc := update_lead JsonRpcP.
Definition delete_lead_xmlrpc := delete_lead XmlRpcP.
Definition delete_lead_jsonrpc := delete_lead JsonRpcP.
Definition search_leads_xmlrpc := search_leads XmlRpcP.
Definition search_leads_jsonrpc := search_leads JsonRpcP.
Definition search_read_leads_xmlrpc := search_read_leads XmlRpcP.
Definition search_read_leads_jsonrpc := search_read_leads JsonRpcP.
Definition create_leads_batch_jsonrpc := create_leads_batch JsonRpcP.
Definition update_leads_batch_xmlrpc := update_leads_batch XmlRpcP.
Definition update_leads_batch_jsonrpc := update_leads_batch JsonRpcP.
Definition delete_leads_batch_xmlrpc := delete_leads_batch XmlRpcP.
Definition delete_leads_batch_jsonrpc := delete_leads_batch JsonRpcP.

End Client.

End Odoo.

(** ** [json.loads]

    The decoder of the Python standard library, on byte strings: a code
    point of a [\u] escape is stored in its UTF-8 encoding.  A number with a
    fraction or an exponent is a [VFloat] holding its literal. *)

Module Json.
Import Py.

Local Open Scope char_scope.

Definition JSONDecodeError (msg : string) : exn := Exn "JSONDecodeError" msg.

Definition dquote : ascii := "034".
Definition backslash : ascii := "092".

Definition is_ws (c : ascii) : bool :=
  Ascii.eqb c " " || Ascii.eqb c "009" || Ascii.eqb c "010" || Ascii.eqb c "013".

Fixpoint skip_ws (s : string) : string :=
  match s with
  | String c s' => if is_ws c then skip_ws s' else s
  | EmptyString => s
  end.

Definition is_digit (c : ascii) : bool :=
  let n := nat_of_ascii c in (48 <=? n)%nat && (n <=? 57)%nat.

Definition digit_val (c : ascii) : Z := Z.of_nat (nat_of_ascii c) - 48.

(** The longest run of digits at the head of [s], and what follows it. *)
Fixpoint span_digits (s : string) : string * string :=
  match s with
  | String c s' =>
      if is_digit c then let '(ds, r) := span_digits s' in (String c ds, r)
      else (EmptyString, s)
  | EmptyString => (EmptyString, s)
  end.

Fixpoint digits_value (acc : Z) (ds : string) : Z :=
  match ds with
  | String c ds' => digits_value (10 * acc + digit_val c) ds'
  | EmptyString => acc
  end.

Definition hex_val (c : ascii) : option Z :=
  let n := nat_of_ascii c in
  if (48 <=? n)%nat && (n <=? 57)%nat then Some (Z.of_nat n - 48)
  else if (65 <=? n)%nat && (n <=? 70)%nat then Some (Z.of_nat n - 55)
  else if (97 <=? n)%nat && (n <=? 102)%nat then Some (Z.of_nat n - 87)
  else None.

Definition hex4 (a b c d : ascii) : option Z :=
  match hex_val a, hex_val b, hex_val c, hex_val d with
  | Some x, Some y, Some z, Some w => Some (((x * 16 + y) * 16 + z) * 16 + w)
  | _, _, _, _ => None
  end.

Definition byte (z : Z) : ascii := ascii_of_nat (Z.to_nat z).

(** [chr(cp)], encoded *)
Definition utf8 (cp : Z) : string :=
  if (cp <? 128)%Z then String (byte cp) ""
  else if (cp <? 2048)%Z then
    String (byte (192 + cp / 64)) (String (byte (128 + cp mod 64)) "")
  else if (cp <? 65536)%Z then
    String (byte (224 + cp / 4096))
      (String (byte (128 + (cp / 64) mod 64)) (String (byte (128 + cp mod 64)) ""))
  else
    String (byte (240 + cp / 262144))
      (String (byte (128 + (cp / 4096) mod 64))
         (String (byte (128 + (cp / 64) mod 64)) (String (byte (128 + cp mod 64)) ""))).

Definition unescape (c : ascii) : option ascii :=
  if Ascii.eqb c dquote then Some dquote
  else if Ascii.eqb c backslash then Some backslash
  else if Ascii.eqb c "/" then Some "/"
  else if Ascii.eqb c "b" then Some "008"
  else if Ascii.eqb c "f" then Some "012"
  else if Ascii.eqb c "n" then Some "010"
  else if Ascii.eqb c "r" then Some "013"
  else if Ascii.eqb c "t" then Some "009"
  else None.

(** The low half of a surrogate pair written as a second [\u] escape. *)
Definition low_surrogate (s : string) : option (Z * string) :=
  match s with
  | String e (String u (String a (String b (String c (String d r))))) =>
      if Ascii.eqb e backslash && Ascii.eqb u "u" then
        match hex4 a b c d with
        | Some lo => if ((56320 <=? lo) && (lo <=? 57343))%Z then Some (lo, r) else None
        | None => None
        end
      else None
  | _ => None
  end.

(** [scanstring], from just after the opening quote: the decoded string
    and the input after the closing quote.  The recursion is on the input
    left to read. *)
Fixpoint scanstring (n : nat) (s : string) : outcome (string * string) :=
  match n with
  | O => Raise (JSONDecodeError "Unterminated string starting at")
  | S n' =>
      match s with
      | EmptyString => Raise (JSONDecodeError "Unterminated string starting at")
      | String c s' =>
          if Ascii.eqb c dquote then Ret (EmptyString, s')
          else if Ascii.eqb c backslash then
            match s' with
            | EmptyString => Raise (JSONDecodeError "Unterminated string starting at")
            | String esc s'' =>
                if Ascii.eqb esc "u" then
                  match s'' with
                  | String a (String b (String x (String d r))) =>
                      match hex4 a b x d with
                      | None => Raise (JSONDecodeError "Invalid \uXXXX escape")
                      | Some hi =>
                          let '(cp, r') :=
                            match (if ((55296 <=? hi) && (hi <=? 56319))%Z
                                   then low_surrogate r else None) with
                            | Some (lo, r') =>
                                (65536 + (hi - 55296) * 1024 + (lo - 56320), r')
                            | None => (hi, r)
                            end in
                          match scanstring n' r' with
                          | Ret (str, rest) => Ret (utf8 cp +:+ str, rest)
                          | Raise e => Raise e
                          end
                      end
                  | _ => Raise (JSONDecodeError "Invalid \uXXXX escape")
                  end
                else
                  match unescape esc with
                  | None => Raise (JSONDecodeError "Invalid \escape")
                  | Some ch =>
                      match scanstring n' s'' with
                      | Ret (str, rest) => Ret (String ch str, rest)
                      | Raise e => Raise e
                      end
                  end
            end
          else if (nat_of_ascii c <? 32)%nat then
            Raise (JSONDecodeError "Invalid control character at")
          else
            match scanstring n' s' with
            | Ret (str, rest) => Ret (String c str, rest)
            | Raise e => Raise e
            end
      end
  end.

(** A number at the head of [s]: an optional minus sign and either a
    single zero or a digit run that starts with a non-zero digit; then, each
    optional, a fraction (a dot and digits) and an exponent ([e] or [E], an
    optional sign, and digits). *)
Definition scan_int (s : string) : option (string * string) :=
  let '(sign, s1) :=
    match s with
    | String c r => if Ascii.eqb c "-" then ("-"%string, r) else (EmptyString, s)
    | EmptyString => (EmptyString, s)
    end in
  match s1 with
  | String c r =>
      if Ascii.eqb c "0" then Some (sign +:+ "0", r)
      else if is_digit c then
        let '(ds, r') := span_digits r in Some (sign +:+ String c ds, r')
      else None
  | EmptyString => None
  end.

Definition scan_frac (s : string) : string * string :=
  match s with
  | String c r =>
      if Ascii.eqb c "." then
        match span_digits r with
        | (EmptyString, _) => (EmptyString, s)
        | (ds, r') => (String c ds, r')
        end
      else (EmptyString, s)
  | EmptyString => (EmptyString, s)
  end.

Definition scan_exp (s : string) : string * string :=
  match s with
  | String e r =>
      if Ascii.eqb e "e" || Ascii.eqb e "E" then
        let '(sign, r1) :=
          match r with
          | String c r' =>
              if Ascii.eqb c "-" || Ascii.eqb c "+" then (String c EmptyString, r')
              else (EmptyString, r)
          | EmptyString => (EmptyString, r)
          end in
        match span_digits r1 with
        | (EmptyString, _) => (EmptyString, s)
        | (ds, r') => (String e (sign +:+ ds), r')
        end
      else (EmptyString, s)
  | EmptyString => (EmptyString, s)
  end.

Definition int_value (lit : string) : Z :=
  match lit with
  | String c ds => if Ascii.eqb c "-" then - digits_value 0 ds else digits_value 0 lit
  | EmptyString => 0
  end.

Definition scan_number (s : string) : option (value * string) :=
  match scan_int s with
  | None => None
  | Some (int, r) =>
      let '(frac, r1) := scan_frac r in
      let '(exp, r2) := scan_exp r1 in
      match frac, exp with
      | EmptyString, EmptyString => Some (VInt (int_value int), r2)
      | _, _ => Some (VFloat (int +:+ frac +:+ exp), r2)
      end
  end.

(** [s] without the prefix [p], if it starts with [p] *)
Fixpoint strip_prefix (p s : string) : option string :=
  match p, s with
  | EmptyString, _ => Some s
  | String a p', String b s' => if Ascii.eqb a b then strip_prefix p' s' else None
  | String _ _, EmptyString => None
  end.

Definition scan_constant (s : string) : option (value * string) :=
  match strip_prefix "null" s with
  | Some r => Some (VNone, r)
  | None =>
  match strip_prefix "true" s with
  | Some r => Some (VBool true, r)
  | None =>
  match strip_prefix "false" s with
  | Some r => Some (VBool false, r)
  | None =>
  match scan_number s with
  | Some res => Some res
  | None =>
  match strip_prefix "NaN" s with
  | Some r => Some (VFloat "NaN", r)
  | None =>
  match strip_prefix "Infinity" s with
  | Some r => Some (VFloat "Infinity", r)
  | None =>
  match strip_prefix "-Infinity" s with
  | Some r => Some (VFloat "-Infinity", r)
  | None => None
  end end end end end end end.

Definition RecursionError : exn :=
  Exn "RecursionError" "maximum recursion depth exceeded".

(** [scan_once]: one value at the head of [s].  No nested call is made on
    a longer input and two nested calls in a row shorten it, so a budget
    above twice the length of [s] is never used up. *)
Fixpoint scan_once (fuel : nat) (s : string) : outcome (value * string) :=
  match fuel with
  | O => Raise RecursionError
  | S fuel' =>
      match s with
      | EmptyString => Raise (JSONDecodeError "Expecting value")
      | String c r =>
          if Ascii.eqb c dquote then
            match scanstring (String.length r) r with
            | Ret (str, rest) => Ret (VStr str, rest)
            | Raise e => Raise e
            end
          else if Ascii.eqb c "{" then
            match skip_ws r with
            | String c' r' =>
                if Ascii.eqb c' "}" then Ret (VDict [], r')
                else scan_members fuel' [] (skip_ws r)
            | EmptyString => scan_members fuel' [] EmptyString
            end
          else if Ascii.eqb c "[" then
            match skip_ws r with
            | String c' r' =>
                if Ascii.eqb c' "]" then Ret (VList [], r')
                else scan_elements fuel' [] (skip_ws r)
            | EmptyString => scan_elements fuel' [] EmptyString
            end
          else
            match scan_constant s with
            | Some res => Ret res
            | None => Raise (JSONDecodeError "Expecting value")
            end
      end
  end

(** The members of an object from the opening quote of a key on; [acc]
    holds the members read so far, a repeated key taking the later value. *)
with scan_members (fuel : nat) (acc : list (string * value)) (s : string)
  : outcome (value * string) :=
  match fuel with
  | O => Raise RecursionError
  | S fuel' =>
      match s with
      | String q r =>
          if Ascii.eqb q dquote then
            match scanstring (String.length r) r with
            | Raise e => Raise e
            | Ret (key, r1) =>
                match skip_ws r1 with
                | String colon r2 =>
                    if Ascii.eqb colon ":" then
                      match scan_once fuel' (skip_ws r2) with
                      | Raise e => Raise e
                      | Ret (v, r3) =>
                          let acc' := dict_set key v acc in
                          match skip_ws r3 with
                          | String d r4 =>
                              if Ascii.eqb d "}" then Ret (VDict acc', r4)
                              else if Ascii.eqb d "," then
                                scan_members fuel' acc' (skip_ws r4)
                              else Raise (JSONDecodeError "Expecting ',' delimiter")
                          | EmptyString =>
                              Raise (JSONDecodeError "Expecting ',' delimiter")
                          end
                      end
                    else Raise (JSONDecodeError "Expecting ':' delimiter")
                | EmptyString => Raise (JSONDecodeError "Expecting ':' delimiter")
                end
            end
          else
            Raise (JSONDecodeError "Expecting property name enclosed in double quotes")
      | EmptyString =>
          Raise (JSONDecodeError "Expecting property name enclosed in double quotes")
      end
  end

(** The elements of an array from the head of an element on. *)
with scan_elements (fuel : nat) (acc : list value) (s : string)
  : outcome (value * string) :=
  match fuel with
  | O => Raise RecursionError
  | S fuel' =>
      match scan_once fuel' s with
      | Raise e => Raise e
      | Ret (v, r) =>
          let acc' := (acc ++ [v])%list in
          match skip_ws r with
          | String d r' =>
              if Ascii.eqb d "]" then Ret (VList acc', r')
              else if Ascii.eqb d "," then scan_elements fuel' acc' (skip_ws r')
              else Raise (JSONDecodeError "Expecting ',' delimiter")
          | EmptyString => Raise (JSONDecodeError "Expecting ',' delimiter")
          end
      end
  end.

(** [json.loads(s)] *)
Definition loads (s : string) : outcome value :=
  match scan_once (S (2 * String.length s)) (skip_ws s) with
  | Raise e => Raise e
  | Ret (v, rest) =>
      match skip_ws rest with
      | EmptyString => Ret v
      | String _ _ => Raise (JSONDecodeError "Extra data")
      end
  end.

End Json.

(** ** [chatbot.py]: the extraction block

    The block that runs once the reply carries the marker [[CREATE_LEAD]]:
    a second request to the generation service, the search for a braced
    block in its answer, and the creation of the lead. *)

Module Chatbot.
Import Py Eff Net.

(** A literal written with single quotes, read with double quotes. *)
Fixpoint dq (s : string) : string :=
  match s with
  | EmptyString => EmptyString
  | String c s' => String (if Ascii.eqb c "'" then Json.dquote else c) (dq s')
  end.

(** The longest prefix of [s] that ends with a closing brace. *)
Fixpoint upto_last_close (s : string) : option string :=
  match s with
  | EmptyString => None
  | String c s' =>
      match upto_last_close s' with
      | Some m => Some (String c m)
      | None => if Ascii.eqb c "}" then Some (String c EmptyString) else None
      end
  end.

(** [re.search(PATTERN, s, re.DOTALL)] for the pattern that is an opening
    brace, any characters (greedy) and a closing brace: the start positions
    are tried from the left, and at an opening brace the match runs to the
    last closing brace.  The result is [match.group(0)]. *)
Fixpoint re_search (s : string) : option string :=
  match s with
  | EmptyString => None
  | String c s' =>
      if Ascii.eqb c "{" then
        match upto_last_close s' with
        | Some m => Some (String c m)
        | None => re_search s'
        end
      else re_search s'
  end.

(** The sidebar fields and the fixed URL. *)
Record config := Config {
  odoo_url : string;
  odoo_db : string;
  odoo_username : string;
  odoo_password : string
}.

(** What the page shows: [st.success] and [st.error], the interpolated
    object or exception kept beside the fixed text. *)
Inductive ui_event :=
| st_success (text : string) (v : value)
| st_error (text : string) (e : option exn).

Record state := State {
  lead_info : value;            (* st.session_state.lead_info *)
  page : list ui_event;
  net : list call
}.

Definition show (ev : ui_event) : M state unit :=
  modify (fun st => {| lead_info := lead_info st; page := (page st ++ [ev])%list;
                       net := net st |}).

Definition set_lead_info (v : value) : M state unit :=
  modify (fun st => {| lead_info := v; page := page st; net := net st |}).

Definition extract_prompt (context : string) : string :=
  "
From the following conversation, extract:
- Name
- Email
- Phone (if provided)
- Requirements

Conversation:
" +:+ context +:+ dq "

Respond in JSON format: {'name': '...', 'email': '...', 'phone': '...', 'requirements': '...'}
".

Section Block.

Variable cfg : config.
Variable T : transport.
(** [model.generate_content(prompt).text] *)
Variable generate_content : string -> outcome string.

Definition ServerProxy (uri : string) : M state string :=
  fun st =>
    match server_proxy T uri with
    | Ret _ => (Ret uri, st)
    | Raise e => (Raise e, st)
    end.

(** A method call on a proxy.  The proxies of the script are built without
    [allow_none]: the client marshals the parameters first, and when that
    raises nothing is sent and the exception is the outcome of the call.
    The log keeps the call made on the proxy in both cases. *)
Definition proxy_call (proxy method : string) (params : list value) : M state value :=
  fun st =>
    (match marshal_error (VList params) with
     | Some e => Raise e
     | None => xmlrpc_call T (net st) proxy method params
     end,
     {| lead_info := lead_info st; page := page st;
        net := (net st ++ [XmlRpc proxy method params])%list |}).

Definition lead_fields (extracted : value) : M state value :=
  let! n := lift (py_get extracted "name" (VStr "New Lead")) in
  let! name := lift (py_add_str n " Lead") in
  let! contact_name := lift (py_get extracted "name" VNone) in
  let! email_from := lift (py_get extracted "email" VNone) in
  let! phone := lift (py_get extracted "phone" VNone) in
  let! description := lift (py_get extracted "requirements" VNone) in
  ret (VDict [("name", name);
              ("contact_name", contact_name);
              ("email_from", email_from);
              ("phone", phone);
              ("description", description)]).

Definition connect_and_create (extracted : value) : M state unit :=
  try_except
    (let! common := ServerProxy (odoo_url cfg +:+ "/xmlrpc/2/common") in
     let! uid := proxy_call common "authenticate"
                   [VStr (odoo_db cfg); VStr (odoo_username cfg);
                    VStr (odoo_password cfg); VDict []] in
     if truthy uid then
       let! models := ServerProxy (odoo_url cfg +:+ "/xmlrpc/2/object") in
       let! fields := lead_fields extracted in
       let! lead_id := proxy_call models "execute_kw"
                         [VStr (odoo_db cfg); uid; VStr (odoo_password cfg);
                          VStr "crm.lead"; VStr "create"; VList [fields]] in
       show (st_success "Lead created successfully in Odoo! Lead ID: " lead_id)
     else
       show (st_error "Odoo authentication failed. Please check credentials." None))
    (fun e => show (st_error "Error connecting to Odoo: " (Some e))).

Definition extract_and_create (context : string) : M state unit :=
  try_except
    (let! text := lift (generate_content (extract_prompt context)) in
     match re_search text with
     | Some group0 =>
         let! extracted := lift (Json.loads group0) in
         do! set_lead_info extracted in
         connect_and_create extracted
     | None =>
         show (st_error "Failed to extract information." None)
     end)
    (fun e => show (st_error "Error extracting information: " (Some e))).

End Block.

End Chatbot.

(** ** Vocabulary of the properties *)

Module Props.
Import Py Eff Net Odoo.

(** The guard under which an execute method authenticates first. *)
Definition unauthenticated (p : protocol) (s : session) : bool :=
  match p with
  | XmlRpcP => negb (truthy (uid s)) || negb (bool_decide (is_Some (xmlrpc_models s)))
  | JsonRpcP => negb (truthy (uid s))
  end.

(** The [result] member of a JSON-RPC answer: there is one when the POST
    returns, the status is 200 and the body is an object with that key.
    A raised exception, another status, a body that does not parse and an
    error payload have none. *)
Definition result_of (o : outcome response) : option value :=
  match o with
  | Ret resp =>
      if Z.eqb (status_code resp) 200 then
        match json resp with
        | Ret (VDict d) => dict_get "result" d
        | _ => None
        end
      else None
  | Raise _ => None
  end.

(** The cookie a login answer sets. *)
Definition session_cookie (o : outcome response) : option string :=
  match o with
  | Ret resp =>
      match cookie_get "session_id" (cookies resp) with
      | Ret cookie => cookie
      | Raise _ => None
      end
  | Raise _ => None
  end.

(** The answer to a login holds two cookies called session_id. *)
Definition cookie_conflict (o : outcome response) : bool :=
  match o with
  | Ret resp =>
      match cookie_get "session_id" (cookies resp) with
      | Ret _ => false
      | Raise _ => true
      end
  | Raise _ => false
  end.

(** The request by which an authenticated session [s] dispatches a method
    call when the log is [log], and the value the execute method returns
    for the answer to it. *)
Definition wire_call (T : transport) (p : protocol) (s : session) (log : list call)
    (model method : string) (args : list value) : call :=
  match p with
  | XmlRpcP =>
      XmlRpc (default "" (xmlrpc_models s)) "execute_kw"
        [VStr (db s); uid s; VStr (password s); VStr model; VStr method; VList args]
  | JsonRpcP =>
      HttpPost (jsonrpc_url s)
        (execute_payload s model method args (time_time T log))
        (Some (session_cookies s))
  end.

Definition wire_answer (T : transport) (p : protocol) (s : session) (log : list call)
    (model method : string) (args : list value) : value :=
  match p with
  | XmlRpcP =>
      match xmlrpc_call T log (default "" (xmlrpc_models s)) "execute_kw"
              [VStr (db s); uid s; VStr (password s); VStr model; VStr method;
               VList args] with
      | Ret v => v
      | Raise _ => VNone
      end
  | JsonRpcP =>
      default VNone
        (result_of (requests_post T log (jsonrpc_url s)
                      (execute_payload s model method args (time_time T log))
                      (Some (session_cookies s))))
  end.





(** A transport whose authenticate method (XML-RPC) or login call
    (JSON-RPC) answers with a falsy result, whatever was requested before. *)
Definition auth_result_falsy (T : transport) (p : protocol) : Prop :=
  match p with
  | XmlRpcP =>
      forall log uri params, exists r,
        xmlrpc_call T log uri "authenticate" params = Ret r /\ truthy r = false
  | JsonRpcP =>
      forall log url s cookies, exists r,
        result_of (requests_post T log url (login_payload s) cookies) = Some r
        /\ truthy r = false
  end.

(** The session fields given at construction. *)
Definition same_settings (s s' : session) : Prop :=
  url s' = url s /\ db s' = db s /\ username s' = username s
  /\ password s' = password s /\ jsonrpc_url s' = jsonrpc_url s.

(** [s'] is [s] after one run of an authenticate method. *)
Definition auth_step (T : transport) (s s' : session) : Prop :=
  exists p log, s' = self (snd (authenticate T p (State s log))).

(** The state after the single-record operation [f] has been run on each
    item of [xs] in turn, and the values these runs returned. *)
Fixpoint after_each {A B} (f : A -> M state B) (xs : list A) (st : state) : state :=
  match xs with
  | [] => st
  | x :: xs' => after_each f xs' (snd (f x st))
  end.

Fixpoint each_result {A B} (f : A -> M state B) (xs : list A) (st : state)
  : list (outcome B) :=
  match xs with
  | [] => []
  | x :: xs' => fst (f x st) :: each_result f xs' (snd (f x st))
  end.

(** The identifiers a batch create keeps: the truthy returned values. *)
Fixpoint created (rs : list (outcome value)) : list value :=
  match rs with
  | [] => []
  | Ret v :: rs' => if truthy v then v :: created rs' else created rs'
  | Raise _ :: rs' => created rs'
  end.

(** The log after [n] method calls dispatched one after the other by an
    authenticated session, one per element of [argss]. *)
Fixpoint log_after (T : transport) (p : protocol) (s : session) (model method : string)
    (argss : list (list value)) (log : list call) : list call :=
  match argss with
  | [] => log
  | args :: argss' =>
      log_after T p s model method argss'
        (log ++ [wire_call T p s log model method args])
  end.

(** All operations of the class, and what running one does to the state;
    [Ret tt] stands for a normal return, whatever the value. *)
Inductive operation :=
| Authenticate (p : protocol)
| Execute (p : protocol) (model method : string) (args : list value)
| CreateLead (p : protocol) (lead_data : value)
| ReadLead (p : protocol) (lead_id : Z) (fields : option (list value))
| UpdateLead (p : protocol) (lead_id : Z) (lead_data : value)
| DeleteLead (p : protocol) (lead_id : Z)
| SearchLeads (p : protocol) (domain offset limit order : value)
| SearchReadLeads (p : protocol) (domain : value) (fields : option (list value))
    (offset limit order : value)
| CreateLeadsBatch (p : protocol) (leads_data : list value)
| UpdateLeadsBatch (p : protocol) (leads_updates : list (Z * value))
| DeleteLeadsBatch (p : protocol) (lead_ids : list Z).

Definition void {A} (m : M state A) : M state unit := do! m in ret tt.

Definition run (T : transport) (op : operation) : M state unit :=
  match op with
  | Authenticate p => void (authenticate T p)
  | Execute p model method args => void (execute T p model method args)
  | CreateLead p d => void (create_lead T p d)
  | ReadLead p i fs => void (read_lead T p i fs)
  | UpdateLead p i d => void (update_lead T p i d)
  | DeleteLead p i => void (delete_lead T p i)
  | SearchLeads p dom off lim ord => void (search_leads T p dom off lim ord)
  | SearchReadLeads p dom fs off lim ord => void (search_read_leads T p dom fs off lim ord)
  | CreateLeadsBatch p ds => void (create_leads_batch T p ds)
  | UpdateLeadsBatch p us => void (update_leads_batch T p us)
  | DeleteLeadsBatch p ids => void (delete_leads_batch T p ids)
  end.

Definition protocol_of (op : operation) : protocol :=
  match op with
  | Authenticate p | Execute p _ _ _ | CreateLead p _ | ReadLead p _ _
  | UpdateLead p _ _ | DeleteLead p _ | SearchLeads p _ _ _ _
  | SearchReadLeads p _ _ _ _ _ | CreateLeadsBatch p _ | UpdateLeadsBatch p _
  | DeleteLeadsBatch p _ => p
  end.

Definition is_authenticate (op : operation) : bool :=
  match op with Authenticate _ => true | _ => false end.

(** A program: operations run one after the other on the same object. *)
Fixpoint run_all (T : transport) (ops : list operation) (st : state) : state :=
  match ops with
  | [] => st
  | op :: ops' => run_all T ops' (snd (run T op st))
  end.

(** [text] has an opening brace with a closing brace somewhere after it. *)
Definition has_braced_block (text : string) : Prop :=
  exists a b c, text = a +:+ String "{" (b +:+ String "}" c).

(** The positional arguments of a [read]. *)
Definition read_args (i : Z) (fs : option (list value)) : list value :=
  [VList [VInt i]; VDict [("fields", VList (default [] fs))]].

(** What a search returns for the value [v] of its execute call: [v] when
    [len(v)] is defined, the empty list when taking the length raises. *)
Definition counted (v : value) : value :=
  match py_len v with Ret _ => v | Raise _ => VList [] end.

(** What an operation of protocol [p] may do to the session: keep the
    settings, change the rest by runs of an authenticate method only, and
    change nothing when the session is authenticated for [p]. *)
Definition frame (T : transport) (p : protocol) (s s' : session) : Prop :=
  same_settings s s' /\ rtc (auth_step T) s s'
  /\ (unauthenticated p s = false -> s' = s).

(** A scan of an input of length [n] that went well: what it leaves to
    read is shorter than the input, and an error is not a used-up budget. *)
Definition within (n : nat) (o : outcome (value * string)) : Prop :=
  match o with
  | Ret (_, rest) => (String.length rest < n)%nat
  | Raise e => e <> Json.RecursionError
  end.

End Props.

(** ** Transports and inputs used as examples *)

Module Examples.
Import Py Eff Net Odoo.

Definition service_method (payload : value) : option value :=
  match payload with
  | VDict d =>
      match dict_get "params" d with
      | Some (VDict ps) => dict_get "method" ps
      | _ => None
      end
  | _ => None
  end.

Definition is_login (payload : value) : bool :=
  match service_method payload with
  | Some (VStr m) => String.eqb m "login"
  | _ => false
  end.

(** A server that answers [authenticate] with [auth], [login] with [login]
    and the [n]-th request, when it is a method call, with [answer n]. *)
Definition server (auth login : value) (answer : nat -> outcome value) : transport :=
  {| server_proxy := fun _ => Ret tt;
     xmlrpc_call := fun log _ method _ =>
       if String.eqb method "authenticate" then Ret auth else answer (length log);
     requests_post := fun log _ payload _ =>
       if is_login payload then
         Ret (Response 200
                (Ret (VDict [("jsonrpc", VStr "2.0"); ("id", VInt 1); ("result", login)]))
                [("session_id", "0f3a")])
       else
         match answer (length log) with
         | Ret v => Ret (Response 200 (Ret (VDict [("jsonrpc", VStr "2.0");
                                                    ("result", v)])) [])
         | Raise e => Raise e
         end;
     time_time := fun _ => 1700000000 |}.

Definition ConnectionRefused : exn :=
  Exn "ConnectionRefusedError" "[Errno 111] Connection refused".

(** No server is listening. *)
Definition unreachable : transport :=
  {| server_proxy := fun _ => Ret tt;
     xmlrpc_call := fun _ _ _ _ => Raise ConnectionRefused;
     requests_post := fun _ _ _ _ => Raise ConnectionRefused;
     time_time := fun _ => 1700000000 |}.

(** A server that rejects the credentials and would answer method calls. *)
Definition rejecting : transport :=
  server (VBool false) (VBool false) (fun _ => Ret (VList [VInt 7])).

(** A server that accepts the XML-RPC credentials, rejects the JSON-RPC
    login, and answers method calls. *)
Definition half_open : transport :=
  server (VInt 2) (VBool false) (fun _ => Ret (VList [VInt 7])).

(** A server that accepts the credentials and answers the [n]-th request
    with the number [100 + n]. *)
Definition counting : transport :=
  server (VInt 2) (VInt 2) (fun n => Ret (VInt (100 + Z.of_nat n))).

(** A server that accepts the credentials and answers every method call
    with [True]. *)
Definition agreeing : transport :=
  server (VInt 2) (VInt 2) (fun _ => Ret (VBool true)).

(** A server that accepts the credentials, answers the requests up to the
    second one, and drops the connection after that. *)
Definition flaky : transport :=
  server (VInt 2) (VInt 2)
    (fun n => if (n <=? 1)%nat then Ret (VInt (100 + Z.of_nat n))
              else Raise ConnectionRefused).


Definition fresh : state :=
  State (__init__ "http://localhost:8069/" "odoo" "admin" "admin") [].

Definition lead (name : string) : value := VDict [("name", VStr name)].

Definition test_domain : value :=
  VList [VList [VStr "name"; VStr "like"; VStr "Test Lead"]].

Definition alice_reply : string :=
  Chatbot.dq "Here is the info: {'name':'Alice','email':'a@x.com','phone':null,'requirements':'CRM demo'} Thanks".

Definition alice : value :=
  VDict [("name", VStr "Alice"); ("email", VStr "a@x.com"); ("phone", VNone);
         ("requirements", VStr "CRM demo")].

Definition sidebar : Chatbot.config :=
  Chatbot.Config "http://localhost:8069" "odoo" "admin" "admin".

Definition blank : Chatbot.state := Chatbot.State VNone [] [].

End Examples.

(** ** [chatbot.py]: one run of the script

    Streamlit runs the script from top to bottom at every interaction.  The
    sidebar fields and the chat input are the inputs of a run; what
    [st.session_state] holds is the state that survives it.  The generation
    service answers a prompt given the prompts it has received before, and
    the prompts are logged. *)

Module Assistant.
Import Py Eff Net.













Section Script.

Variable T : transport.
Variable G : list string -> string -> outcome string.
Variables gemini_api_key odoo_db odoo_username odoo_password : string.

Definition sidebar : Chatbot.config :=
  Chatbot.Config "http://localhost:8069" odoo_db odoo_username odoo_password.




End Script.

End Assistant.

(** ** Vocabulary of the further properties *)

Module Facts.
Import Py Eff Net Odoo Props.

(** A run of [k] slashes. *)
Fixpoint slashes (k : nat) : string :=
  match k with
  | O => ""
  | S k' => String "/" (slashes k')
  end.

(** [ch in s] *)
Fixpoint has_char (ch : ascii) (s : string) : bool :=
  match s with
  | EmptyString => false
  | String c s' => Ascii.eqb c ch || has_char ch s'
  end.

(** What a read makes of the value its execute call returned. *)
Definition first_record (v : value) : value :=
  match v with
  | VList (x :: _) => x
  | VStr (String c s) => VStr (first_char c s)
  | _ => VNone
  end.

(** The request [wire_call] is answered with the result [v]. *)
Definition call_answers (T : transport) (p : protocol) (s : session) (log : list call)
    (model method : string) (args : list value) (v : value) : Prop :=
  match p with
  | XmlRpcP =>
      xmlrpc_call T log (default "" (xmlrpc_models s)) "execute_kw"
        [VStr (db s); uid s; VStr (password s); VStr model; VStr method; VList args]
      = Ret v
  | JsonRpcP =>
      result_of (requests_post T log (jsonrpc_url s)
                   (execute_payload s model method args (time_time T log))
                   (Some (session_cookies s))) = Some v
  end.

(** The number of items an operation works on. *)
Definition items (op : operation) : nat :=
  match op with
  | CreateLeadsBatch _ ds => length ds
  | UpdateLeadsBatch _ us => length us
  | DeleteLeadsBatch _ ids => length ids
  | _ => 1
  end.

(** The two requests the extraction block can make. *)
Definition authenticate_call (cfg : Chatbot.config) : call :=
  XmlRpc (Chatbot.odoo_url cfg +:+ "/xmlrpc/2/common") "authenticate"
    [VStr (Chatbot.odoo_db cfg); VStr (Chatbot.odoo_username cfg);
     VStr (Chatbot.odoo_password cfg); VDict []].

Definition create_call (cfg : Chatbot.config) (uid fields : value) : call :=
  XmlRpc (Chatbot.odoo_url cfg +:+ "/xmlrpc/2/object") "execute_kw"
    [VStr (Chatbot.odoo_db cfg); uid; VStr (Chatbot.odoo_password cfg);
     VStr "crm.lead"; VStr "create"; VList [fields]].

(** The outcome of the create call made on the object proxy when the log
    is [log]: the exception of the client when a parameter cannot be
    marshalled, the answer of the server otherwise. *)
Definition create_outcome (T : transport) (cfg : Chatbot.config) (log : list call)
    (uid fields : value) : outcome value :=
  let params := [VStr (Chatbot.odoo_db cfg); uid; VStr (Chatbot.odoo_password cfg);
                 VStr "crm.lead"; VStr "create"; VList [fields]] in
  match marshal_error (VList params) with
  | Some e => Raise e
  | None =>
      xmlrpc_call T log (Chatbot.odoo_url cfg +:+ "/xmlrpc/2/object") "execute_kw" params
  end.

Definition is_error (ev : Chatbot.ui_event) : bool :=
  match ev with
  | Chatbot.st_error _ _ => true
  | Chatbot.st_success _ _ => false
  end.

(** The fields of the lead created for an extracted object whose name is
    [name]. *)
Definition fields_of (d : list (string * value)) (name : string) : value :=
  VDict [("name", VStr (name +:+ " Lead"));
         ("contact_name", default VNone (dict_get "name" d));
         ("email_from", default VNone (dict_get "email" d));
         ("phone", default VNone (dict_get "phone" d));
         ("description", default VNone (dict_get "requirements" d))].



(** [st'] extends the request log of [st] by at most [n] requests. *)
Definition at_most (n : nat) (st st' : state) : Prop :=
  exists extra, net st' = net st ++ extra /\ (length extra <= n)%nat.

(** The messages of the two handlers of the extraction block. *)
Definition conn_error (e : exn) : Chatbot.ui_event :=
  Chatbot.st_error "Error connecting to Odoo: " (Some e).

Definition extract_error (e : exn) : Chatbot.ui_event :=
  Chatbot.st_error "Error extracting information: " (Some e).

(** The page of [st] with one more message. *)
Definition shows (st : Chatbot.state) (ev : Chatbot.ui_event) : Chatbot.state :=
  Chatbot.State (Chatbot.lead_info st) (Chatbot.page st ++ [ev]) (Chatbot.net st).


End Facts.

(** * Properties *)

Import Py Eff Net Odoo Props.

Set Warnings "-clear-no-such-hyp".

(** *** Tactics and basic facts *)

Lemma try_except_total {S A} (m : M S A) (x : A) (st : S) :
  exists a st', try_except m (fun _ => ret x) st = (Ret a, st').
Proof.
  unfold try_except, ret. destruct (m st) as [[a|e] st']; eauto.
Qed.

Ltac unfold_eff :=
  unfold try_except, bind, ret, raise, lift, get, modify, get_self, assign,
    ServerProxy, proxy_call, post, now in *.

Ltac case_step :=
  match goal with
  | |- context [match ?x with _ => _ end] =>
      lazymatch x with
      | context [match _ with _ => _ end] => fail
      | _ => destruct x eqn:?
      end
  end.

Ltac case_hyp :=
  match goal with
  | H : context [match ?x with _ => _ end] |- _ =>
      lazymatch x with
      | context [match _ with _ => _ end] => fail
      | _ => destruct x eqn:?
      end
  end.

(** *** Loops *)

Lemma for_each_ext {S A Acc} (b1 b2 : Acc -> A -> M S Acc) xs :
  (forall acc x st, b1 acc x st = b2 acc x st) ->
  forall acc st, for_each xs acc b1 st = for_each xs acc b2 st.
Proof.
  intros Hb. induction xs as [|x xs IH]; intros acc st; [done|].
  cbn. unfold bind. rewrite Hb. destruct (b2 acc x st) as [[a|e] st']; [apply IH|done].
Qed.

Section Loops.
Context {A : Type} (f : A -> M state value).
Hypothesis f_total : forall x st, exists v st', f x st = (Ret v, st').

Lemma each_result_length xs st : length (each_result f xs st) = length xs.
Proof. revert st. induction xs as [|x xs IH]; intros st; cbn; [done|]. by rewrite IH. Qed.


Lemma each_result_lookup xs i x st :
  xs !! i = Some x ->
  each_result f xs st !! i = Some ((f x (after_each f (take i xs) st)).1).
Proof.
  revert i st. induction xs as [|y xs IH]; intros [|i] st Hi; simplify_eq/=; [done|].
  by apply IH.
Qed.

Lemma after_each_preorder (R : session -> session -> Prop) xs st :
  (forall s, R s s) -> (forall s1 s2 s3, R s1 s2 -> R s2 s3 -> R s1 s3) ->
  (forall x st, R (self st) (self (f x st).2)) ->
  R (self st) (self (after_each f xs st)).
Proof.
  intros Hrefl Htrans Hf. revert st.
  induction xs as [|x xs IH]; intros st; cbn; [apply Hrefl|].
  eapply Htrans; [apply Hf|apply IH].
Qed.

Lemma create_loop xs acc st :
  for_each xs acc
    (fun lead_ids lead_data =>
       let! lead_id := f lead_data in
       ret (if truthy lead_id then (lead_ids ++ [lead_id])%list else lead_ids)) st
  = (Ret (acc ++ created (each_result f xs st)), after_each f xs st).
Proof.
  revert acc st. induction xs as [|x xs IH]; intros acc st; cbn.
  - by rewrite app_nil_r.
  - destruct (f_total x st) as (v & st' & E). unfold bind at 1. unfold bind at 1.
    rewrite E. cbn. rewrite IH. destruct (truthy v); [|done].
    by rewrite <- app_assoc.
Qed.

Context (key : A -> Z).

Lemma mapping_loop xs : forall (acc : gmap Z value) st,
  exists m,
    for_each xs acc
      (fun results x => let! success := f x in ret (<[key x := success]> results)) st
    = (Ret m, after_each f xs st)
    /\ dom m = dom acc ∪ list_to_set (key <$> xs)
    /\ (forall k, k ∉ key <$> xs -> m !! k = acc !! k)
    /\ (forall i x, xs !! i = Some x -> key x ∉ key <$> drop (S i) xs ->
          exists v, (f x (after_each f (take i xs) st)).1 = Ret v /\ m !! key x = Some v).
Proof.
  induction xs as [|x xs IH]; intros acc st.
  - exists acc. cbn. split_and!; [done|set_solver|done|]. intros i x Hi. by destruct i.
  - destruct (f_total x st) as (v & st' & E).
    destruct (IH (<[key x := v]> acc) st') as (m & Hrun & Hdom & Hout & Hin).
    exists m. cbn. unfold bind at 1. unfold bind at 1. rewrite E. cbn. split_and!.
    + done.
    + rewrite Hdom, dom_insert_L. set_solver.
    + intros k Hk. rewrite Hout by set_solver. apply lookup_insert_ne. set_solver.
    + intros [|i] y Hi Hlast; simplify_eq/=.
      * exists v. rewrite E. split; [done|]. rewrite Hout by done. apply lookup_insert_eq.
      * rewrite E. cbn. by apply Hin.
Qed.

End Loops.

Section ClientFacts.
Variable T : transport.

Lemma xmlrpc_authenticate_cases st :
  let s := self st in
  let common := url s +:+ "/xmlrpc/2/common" in
  let models := url s +:+ "/xmlrpc/2/object" in
  let params := [VStr (db s); VStr (username s); VStr (password s); VDict []] in
  let log' := (net st ++ [XmlRpc common "authenticate" params])%list in
  xmlrpc_authenticate T st =
    match server_proxy T common with
    | Raise _ => (Ret false, st)
    | Ret _ =>
        match xmlrpc_call T (net st) common "authenticate" params with
        | Raise _ => (Ret false, State (set_xmlrpc_common (Some common) s) log')
        | Ret r =>
            let s1 := set_uid r (set_xmlrpc_common (Some common) s) in
            if truthy r then
              match server_proxy T models with
              | Raise _ => (Ret false, State s1 log')
              | Ret _ => (Ret true, State (set_xmlrpc_models (Some models) s1) log')
              end
            else (Ret false, State s1 log')
        end
    end.
Proof.
  destruct st as [s log]. cbn -[String.append].
  unfold xmlrpc_authenticate. unfold_eff. cbn -[String.append].
  repeat (case_step; cbn -[String.append]; try reflexivity).
Qed.


Lemma jsonrpc_authenticate_cases st :
  let s := self st in
  let o := requests_post T (net st) (jsonrpc_url s) (login_payload s) None in
  let log' := (net st ++ [HttpPost (jsonrpc_url s) (login_payload s) None])%list in
  jsonrpc_authenticate T st =
    match result_of o with
    | Some r =>
        if truthy r then
          if cookie_conflict o then (Ret false, State (set_uid r s) log')
          else (Ret true, State (set_session_id (session_cookie o) (set_uid r s)) log')
        else (Ret false, State s log')
    | None => (Ret false, State s log')
    end.
Proof.
  destruct st as [s log]. cbn -[login_payload].
  unfold jsonrpc_authenticate, result_of, session_cookie, cookie_conflict. unfold_eff.
  cbn -[login_payload].
  repeat (case_step; cbn -[login_payload] in *; try reflexivity; try congruence).
Qed.

Lemma execute_authenticated p model method args st :
  unauthenticated p (self st) = false ->
  execute T p model method args st =
    (Ret (wire_answer T p (self st) (net st) model method args),
     State (self st)
       (net st ++ [wire_call T p (self st) (net st) model method args])).
Proof.
  destruct st as [[u d n pw ui xc xm ju sid] log], p;
    cbn -[execute_payload]; intros Hauth.
  - apply orb_false_elim in Hauth as [Hu Hm].
    destruct xm as [mo|]; [|discriminate].
    unfold xmlrpc_execute. unfold_eff. cbn -[execute_payload].
    rewrite Hu. cbn.
    case_step; reflexivity.
  - unfold jsonrpc_execute, result_of. unfold_eff. cbn -[execute_payload].
    rewrite Hauth. cbn -[execute_payload].
    repeat (case_step; cbn -[execute_payload] in *; try reflexivity; try congruence).
    all: repeat (case_hyp; cbn -[execute_payload] in *; try congruence).
Qed.


Lemma authenticate_total p st :
  exists b st', authenticate T p st = (Ret b, st').
Proof. destruct p; apply try_except_total. Qed.

Lemma execute_total p model method args st :
  exists v st', execute T p model method args st = (Ret v, st').
Proof. destruct p; apply try_except_total. Qed.

Lemma authenticate_success p st st' :
  authenticate T p st = (Ret true, st') -> unauthenticated p (self st') = false.
Proof.
  destruct p; cbn [authenticate].
  - rewrite xmlrpc_authenticate_cases.
    repeat (case_step; try discriminate).
    intros [= <-]. cbn. by rewrite Heqb.
  - rewrite jsonrpc_authenticate_cases.
    repeat (case_step; try discriminate).
    intros [= <-]. cbn. by rewrite Heqb.
Qed.

Lemma authenticate_settings p st :
  same_settings (self st) (self (snd (authenticate T p st))).
Proof.
  destruct p; cbn [authenticate].
  - rewrite xmlrpc_authenticate_cases.
    repeat (case_step; try discriminate); by cbn.
  - rewrite jsonrpc_authenticate_cases.
    repeat (case_step; try discriminate); by cbn.
Qed.

Lemma authenticate_log p st :
  net st `prefix_of` net (snd (authenticate T p st)).
Proof.
  destruct p; cbn [authenticate].
  - rewrite xmlrpc_authenticate_cases.
    repeat (case_step; try discriminate); cbn; try done; by apply prefix_app_r.
  - rewrite jsonrpc_authenticate_cases.
    repeat (case_step; try discriminate); cbn; try done; by apply prefix_app_r.
Qed.

Lemma execute_unauthenticated p model method args st b st1 :
  unauthenticated p (self st) = true ->
  authenticate T p st = (Ret b, st1) ->
  execute T p model method args st =
    if b then
      (Ret (wire_answer T p (self st1) (net st1) model method args),
       State (self st1)
         (net st1 ++ [wire_call T p (self st1) (net st1) model method args]))
    else (Ret VNone, st1).
Proof.
  intros Hun Hauth.
  assert (Hok : b = true -> unauthenticated p (self st1) = false).
  { intros ->. by eapply authenticate_success. }
  destruct st as [[u d n pw ui xc xm ju sid] log].
  destruct st1 as [[u1 d1 n1 pw1 ui1 xc1 xm1 ju1 sid1] log1].
  destruct p; cbn [execute authenticate unauthenticated self uid xmlrpc_models] in *.
  - unfold xmlrpc_execute. unfold_eff.
    cbn -[xmlrpc_authenticate]. rewrite Hun, Hauth.
    destruct b; [|reflexivity].
    destruct (orb_false_elim _ _ (Hok eq_refl)) as [Hu Hm].
    destruct xm1 as [mo|]; [|discriminate].
    cbn. case_step; reflexivity.
  - unfold jsonrpc_execute. unfold_eff.
    cbn -[jsonrpc_authenticate execute_payload]. rewrite Hun, Hauth.
    destruct b; [|reflexivity].
    unfold result_of.
    repeat (case_step; simplify_eq; cbn -[execute_payload] in *;
            try reflexivity; try congruence).
    all: repeat (case_hyp; simplify_eq; cbn -[execute_payload] in *; try congruence).
Qed.



(** *** Derived operations *)

Lemma create_lead_execute p d st :
  create_lead T p d st = execute T p "crm.lead" "create" [VList [d]] st.
Proof.
  destruct (execute_total p "crm.lead" "create" [VList [d]] st) as (v & st' & E).
  unfold create_lead, try_except, bind, ret. by rewrite E.
Qed.

Lemma update_lead_execute p i d st :
  update_lead T p i d st = execute T p "crm.lead" "write" [VList [VInt i]; d] st.
Proof.
  destruct (execute_total p "crm.lead" "write" [VList [VInt i]; d] st) as (v & st' & E).
  unfold update_lead, try_except, bind, ret. by rewrite E.
Qed.

Lemma delete_lead_execute p i st :
  delete_lead T p i st = execute T p "crm.lead" "unlink" [VList [VInt i]] st.
Proof.
  destruct (execute_total p "crm.lead" "unlink" [VList [VInt i]] st) as (v & st' & E).
  unfold delete_lead, try_except, bind, ret. by rewrite E.
Qed.

Lemma read_lead_state p i fs st :
  exists v, read_lead T p i fs st = (Ret v, snd (execute T p "crm.lead" "read" (read_args i fs) st)).
Proof.
  destruct (execute_total p "crm.lead" "read" (read_args i fs) st) as (v & st' & E).
  unfold read_lead, read_args in *. unfold_eff. destruct fs; cbn in *; rewrite E; cbn.
  all: repeat (case_step; simplify_eq; cbn in *); eauto.
Qed.


Lemma read_lead_found p i fs st x l st' :
  execute T p "crm.lead" "read" (read_args i fs) st = (Ret (VList (x :: l)), st') ->
  read_lead T p i fs st = (Ret x, st').
Proof.
  intros E. unfold read_lead, read_args in *. unfold_eff.
  destruct fs; cbn in *; rewrite E; cbn; reflexivity.
Qed.

Lemma search_leads_execute p dom off lim ord st :
  search_leads T p dom off lim ord st =
    let r := execute T p "crm.lead" "search"
               [dom; VDict (search_kwargs [] off lim ord)] st in
    (match r.1 with Ret v => Ret (counted v) | Raise _ => Ret (VList []) end, r.2).
Proof.
  destruct (execute_total p "crm.lead" "search"
              [dom; VDict (search_kwargs [] off lim ord)] st) as (v & st' & E).
  unfold search_leads, counted. unfold_eff. cbn. rewrite E. cbn.
  by destruct (py_len v).
Qed.

Lemma search_read_leads_execute p dom fs off lim ord st :
  search_read_leads T p dom fs off lim ord st =
    let r := execute T p "crm.lead" "search_read"
               [dom; VDict (search_kwargs [("fields", VList (default [] fs))] off lim ord)] st in
    (match r.1 with Ret v => Ret (counted v) | Raise _ => Ret (VList []) end, r.2).
Proof.
  destruct (execute_total p "crm.lead" "search_read"
              [dom; VDict (search_kwargs [("fields", VList (default [] fs))] off lim ord)] st)
    as (v & st' & E).
  unfold search_read_leads, counted. unfold_eff. destruct fs; cbn in *; rewrite E; cbn.
  all: by destruct (py_len v).
Qed.


(** *** The session across an operation *)

Lemma same_settings_refl s : same_settings s s.
Proof. by repeat split. Qed.

Lemma same_settings_trans s1 s2 s3 :
  same_settings s1 s2 -> same_settings s2 s3 -> same_settings s1 s3.
Proof. unfold same_settings. intros (?&?&?&?&?) (?&?&?&?&?). split_and!; congruence. Qed.

Lemma frame_refl p s : frame T p s s.
Proof. split_and!; [apply same_settings_refl|done|done]. Qed.

Lemma frame_trans p s1 s2 s3 : frame T p s1 s2 -> frame T p s2 s3 -> frame T p s1 s3.
Proof.
  intros (Ha & Hb & Hc) (Ha' & Hb' & Hc'). split_and!.
  - by eapply same_settings_trans.
  - by etrans.
  - intros H. rewrite (Hc H) in *. by apply Hc'.
Qed.

Lemma execute_frame p model method args st :
  frame T p (self st) (self (execute T p model method args st).2).
Proof.
  destruct (unauthenticated p (self st)) eqn:Hun.
  - destruct (authenticate_total p st) as (b & st1 & Hauth).
    rewrite (execute_unauthenticated _ _ _ _ _ _ _ Hun Hauth).
    assert (self (if b
              then (Ret (wire_answer T p (self st1) (net st1) model method args),
                    State (self st1)
                      (net st1 ++ [wire_call T p (self st1) (net st1) model method args]))
              else (Ret VNone, st1)).2 = self st1) as -> by by destruct b.
    split_and!.
    + generalize (authenticate_settings p st). by rewrite Hauth.
    + apply rtc_once. exists p, (net st). destruct st. cbn. by rewrite Hauth.
    + congruence.
  - rewrite (execute_authenticated _ _ _ _ _ Hun). apply frame_refl.
Qed.

Lemma create_lead_frame p d st : frame T p (self st) (self (create_lead T p d st).2).
Proof. rewrite create_lead_execute. apply execute_frame. Qed.

Lemma update_lead_frame p i d st : frame T p (self st) (self (update_lead T p i d st).2).
Proof. rewrite update_lead_execute. apply execute_frame. Qed.

Lemma delete_lead_frame p i st : frame T p (self st) (self (delete_lead T p i st).2).
Proof. rewrite delete_lead_execute. apply execute_frame. Qed.

Lemma read_lead_frame p i fs st : frame T p (self st) (self (read_lead T p i fs st).2).
Proof. destruct (read_lead_state p i fs st) as (v & ->). apply execute_frame. Qed.

Lemma search_leads_frame p dom off lim ord st :
  frame T p (self st) (self (search_leads T p dom off lim ord st).2).
Proof. rewrite search_leads_execute. apply execute_frame. Qed.

Lemma search_read_leads_frame p dom fs off lim ord st :
  frame T p (self st) (self (search_read_leads T p dom fs off lim ord st).2).
Proof. rewrite search_read_leads_execute. apply execute_frame. Qed.

Lemma create_lead_total p d st : exists v st', create_lead T p d st = (Ret v, st').
Proof. apply try_except_total. Qed.

Lemma update_lead_total p x st :
  exists v st', update_lead T p x.1 x.2 st = (Ret v, st').
Proof. apply try_except_total. Qed.

Lemma delete_lead_total p i st : exists v st', delete_lead T p i st = (Ret v, st').
Proof. apply try_except_total. Qed.

Lemma create_leads_batch_run p ds st :
  create_leads_batch T p ds st =
    (Ret (created (each_result (create_lead T p) ds st)),
     after_each (create_lead T p) ds st).
Proof.
  unfold create_leads_batch, try_except, bind at 1.
  rewrite (create_loop _ (create_lead_total p)). reflexivity.
Qed.

Lemma delete_leads_batch_run p ids st :
  exists m,
    delete_leads_batch T p ids st = (Ret m, after_each (delete_lead T p) ids st)
    /\ dom m = list_to_set ids
    /\ (forall i k, ids !! i = Some k -> k ∉ drop (S i) ids ->
          exists v, (delete_lead T p k (after_each (delete_lead T p) (take i ids) st)).1 = Ret v
                    /\ m !! k = Some v).
Proof.
  destruct (mapping_loop _ (delete_lead_total p) id ids ∅ st) as (m & Hrun & Hdom & _ & Hin).
  exists m. unfold delete_leads_batch, try_except, bind at 1.
  unfold id in Hrun. rewrite Hrun.
  split_and!; [done| |].
  - rewrite Hdom, list_fmap_id. set_solver.
  - intros i k Hi Hk. apply Hin; [done|]. by rewrite list_fmap_id.
Qed.

Lemma update_leads_batch_run p us st :
  let f := fun x : Z * value => update_lead T p x.1 x.2 in
  exists m,
    update_leads_batch T p us st = (Ret m, after_each f us st)
    /\ dom m = list_to_set us.*1
    /\ (forall i k d, us !! i = Some (k, d) -> k ∉ (drop (S i) us).*1 ->
          exists v, (update_lead T p k d (after_each f (take i us) st)).1 = Ret v
                    /\ m !! k = Some v).
Proof.
  intros f.
  destruct (mapping_loop f (update_lead_total p) fst us ∅ st) as (m & Hrun & Hdom & _ & Hin).
  exists m. unfold update_leads_batch, try_except, bind at 1.
  rewrite (for_each_ext _
             (fun results x => let! success := f x in ret (<[x.1 := success]> results)))
    by (by intros acc [k d] st0).
  rewrite Hrun. split_and!; [done| |].
  - rewrite Hdom. set_solver.
  - intros i k d Hi Hk. by apply (Hin i (k, d)).
Qed.

Lemma batch_frame {A} (f : A -> M state value) p xs st :
  (forall x st, frame T p (self st) (self (f x st).2)) ->
  frame T p (self st) (self (after_each f xs st)).
Proof.
  intros Hf. apply (after_each_preorder f (frame T p)); [apply frame_refl|apply frame_trans|done].
Qed.

End ClientFacts.

Lemma void_run {A} (m : M state A) st :
  (void m st).2 = (m st).2
  /\ (forall a st', m st = (Ret a, st') -> void m st = (Ret tt, st')).
Proof.
  unfold void, bind, ret. destruct (m st) as [[a|e] st']; split; try done.
  by intros ?? [= <- <-].
Qed.


Lemma run_frame T op st :
  let s' := self (run T op st).2 in
  same_settings (self st) s' /\ rtc (auth_step T) (self st) s'
  /\ (is_authenticate op = false ->
      unauthenticated (protocol_of op) (self st) = false -> s' = self st).
Proof.
  assert (forall p s', frame T p (self st) s' ->
            same_settings (self st) s' /\ rtc (auth_step T) (self st) s'
            /\ (false = false -> unauthenticated p (self st) = false -> s' = self st))
    as Hframe.
  { intros p s' (Ha & Hb & Hc). auto. }
  destruct op; cbn [run protocol_of is_authenticate];
    rewrite (proj1 (void_run _ _)); try apply Hframe.
  - split_and!; [apply authenticate_settings| |done].
    apply rtc_once. exists p, (net st). by destruct st.
  - apply execute_frame.
  - apply create_lead_frame.
  - apply read_lead_frame.
  - apply update_lead_frame.
  - apply delete_lead_frame.
  - apply search_leads_frame.
  - apply search_read_leads_frame.
  - rewrite create_leads_batch_run. apply batch_frame, create_lead_frame.
  - destruct (update_leads_batch_run T p leads_updates st) as (m & -> & _).
    apply batch_frame. intros x st0. apply update_lead_frame.
  - destruct (delete_leads_batch_run T p lead_ids st) as (m & -> & _).
    apply batch_frame, delete_lead_frame.
Qed.

Lemma run_all_settings T ops st :
  same_settings (self st) (self (run_all T ops st)).
Proof.
  revert st. induction ops as [|op ops IH]; intros st; cbn.
  - apply same_settings_refl.
  - eapply same_settings_trans; [apply (run_frame T op st)|apply IH].
Qed.

(** ** The claims *)

(** *** Failed authentication *)

Lemma authenticate_falsy T p st :
  auth_result_falsy T p ->
  exists st1,
    authenticate T p st = (Ret false, st1)
    /\ (p = JsonRpcP -> uid (self st1) = uid (self st))
    /\ (truthy (uid (self st)) = false
        \/ (p = XmlRpcP
            /\ server_proxy T (url (self st) +:+ "/xmlrpc/2/common") = Ret tt) ->
        truthy (uid (self st1)) = false).
Proof.
  intros Hfalsy. destruct p; cbn [authenticate auth_result_falsy] in *.
  - rewrite xmlrpc_authenticate_cases.
    destruct (server_proxy T _) as [[]|e].
    + destruct (Hfalsy (net st) (url (self st) +:+ "/xmlrpc/2/common")
                  [VStr (db (self st)); VStr (username (self st));
                   VStr (password (self st)); VDict []]) as (r & -> & Hr).
      rewrite Hr. eexists. split_and!; [done|done|done].
    + eexists. split_and!; [done|done|]. by intros [|[_ [=]]].
  - rewrite jsonrpc_authenticate_cases.
    destruct (Hfalsy (net st) (jsonrpc_url (self st)) (self st) None) as (r & -> & Hr).
    rewrite Hr. eexists. split_and!; [done|done|]. by intros [|[[=] _]].
Qed.

(** C1 (amended).  An authenticate method run against a transport that
    answers authenticate (XML-RPC) or login (JSON-RPC) with a falsy result
    returns false.  [jsonrpc_authenticate] then leaves the uid as it was;
    [xmlrpc_authenticate] stores the falsy answer in it once the proxy of
    the common endpoint is built.  So, on a session whose uid is unset
    before the call -- and over XML-RPC on any session whose proxy can be
    built -- the uid is falsy afterwards, and an execute method called next
    returns None; neither call raises. *)
Theorem failed_authentication_blocks_execute T p q model method args st :
  auth_result_falsy T p ->
  auth_result_falsy T q ->
  truthy (uid (self st)) = false
  \/ (p = XmlRpcP /\ server_proxy T (url (self st) +:+ "/xmlrpc/2/common") = Ret tt) ->
  exists st1 st2,
    authenticate T p st = (Ret false, st1)
    /\ truthy (uid (self st1)) = false
    /\ (p = JsonRpcP -> uid (self st1) = uid (self st))
    /\ execute T q model method args st1 = (Ret VNone, st2).
Proof.
  intros Hp Hq Hu.
  destruct (authenticate_falsy T p st Hp) as (st1 & Hauth & Hsame & Hu1).
  specialize (Hu1 Hu).
  destruct (authenticate_falsy T q st1 Hq) as (st2 & Hauth2 & _).
  exists st1, st2. split_and!; try done.
  rewrite (execute_unauthenticated T q model method args st1 false st2); [done| |done].
  destruct q; cbn; by rewrite Hu1.
Qed.

Lemma rejecting_is_falsy p : auth_result_falsy Examples.rejecting p.
Proof.
  destruct p; cbn.
  - intros log uri params. by exists (VBool false).
  - intros log url s cookies. by exists (VBool false).
Qed.

Lemma failed_authentication_blocks_execute_witness :
  exists st1 st2,
    authenticate Examples.rejecting XmlRpcP Examples.fresh = (Ret false, st1)
    /\ truthy (uid (self st1)) = false
    /\ (XmlRpcP = JsonRpcP -> uid (self st1) = uid (self Examples.fresh))
    /\ execute Examples.rejecting JsonRpcP "crm.lead" "search"
         [Examples.test_domain; VDict []] st1 = (Ret VNone, st2).
Proof.
  apply (failed_authentication_blocks_execute Examples.rejecting XmlRpcP JsonRpcP
           "crm.lead" "search" [Examples.test_domain; VDict []] Examples.fresh
           (rejecting_is_falsy XmlRpcP) (rejecting_is_falsy JsonRpcP)).
  left. reflexivity.
Defined.

(** C1, as stated, fails on a session that already holds a uid.  The demo
    itself authenticates over XML-RPC and then over JSON-RPC on the same
    object: when the server accepts the first and answers the login with
    false, [jsonrpc_authenticate] returns false, the uid is still 2, and
    the next [jsonrpc_execute] dispatches the call and returns its answer. *)
Lemma failed_login_keeps_an_earlier_uid :
  auth_result_falsy Examples.half_open JsonRpcP
  /\ let st0 := (xmlrpc_authenticate Examples.half_open Examples.fresh).2 in
     let st1 := (jsonrpc_authenticate Examples.half_open st0).2 in
     (jsonrpc_authenticate Examples.half_open st0).1 = Ret false
     /\ uid (self st1) = VInt 2
     /\ (jsonrpc_execute Examples.half_open "crm.lead" "search"
           [Examples.test_domain; VDict []] st1).1 = Ret (VList [VInt 7]).
Proof.
  split.
  - intros log url s cookies. by exists (VBool false).
  - vm_compute. done.
Qed.

(** *** The keyword mapping of a search *)

Lemma dict_get_set k k' v d :
  dict_get k (dict_set k' v d) = if String.eqb k k' then Some v else dict_get k d.
Proof.
  induction d as [|[k0 v0] d IH]; cbn.
  - by destruct (String.eqb k k').
  - destruct (String.eqb_spec k' k0) as [->|Hne]; cbn.
    + by destruct (String.eqb k k0).
    + destruct (String.eqb_spec k k0) as [->|Hne'].
      * destruct (String.eqb_spec k0 k'); [congruence|done].
      * apply IH.
Qed.

Lemma add_if_truthy_lookup k k' v d :
  dict_get k (add_if_truthy k' v d) =
    if String.eqb k k' && truthy v then Some v else dict_get k d.
Proof.
  unfold add_if_truthy. destruct (truthy v).
  - rewrite dict_get_set. by destruct (String.eqb k k').
  - by rewrite andb_false_r.
Qed.

Lemma search_kwargs_lookup base offset limit order k :
  dict_get k (search_kwargs base offset limit order) =
    if String.eqb k "order" && truthy order then Some order
    else if String.eqb k "limit" && truthy limit then Some limit
    else if String.eqb k "offset" && truthy offset then Some offset
    else dict_get k base.
Proof. unfold search_kwargs. by rewrite !add_if_truthy_lookup. Qed.

Lemma execute_authenticated_log T p model method args st :
  unauthenticated p (self st) = false ->
  net (execute T p model method args st).2 =
    net st ++ [wire_call T p (self st) (net st) model method args].
Proof. intros Hauth. by rewrite execute_authenticated. Qed.

(** C2 (amended).  A search sends to execute the domain and a keyword
    mapping in which each of offset, limit and order is present with the
    value supplied when that value is truthy, and absent when it is falsy
    (the default, but also 0 or the empty string); the mapping of a search
    has no other key, and the mapping of a search-read has, besides, the key
    fields, bound to the list supplied or to [] by default.  A search with
    limit=5 and order="id desc" and the rest at default sends exactly
    {limit: 5, order: "id desc"}. *)
Theorem search_sends_truthy_options_only T p domain fields offset limit order st :
  let kw := search_kwargs [] offset limit order in
  let kwr := search_kwargs [("fields", VList (default [] fields))] offset limit order in
  ((search_leads T p domain offset limit order st).2
     = (execute T p "crm.lead" "search" [domain; VDict kw] st).2
   /\ (search_read_leads T p domain fields offset limit order st).2
        = (execute T p "crm.lead" "search_read" [domain; VDict kwr] st).2)
  /\ (unauthenticated p (self st) = false ->
      net (search_leads T p domain offset limit order st).2
        = net st ++ [wire_call T p (self st) (net st) "crm.lead" "search"
                       [domain; VDict kw]]
      /\ net (search_read_leads T p domain fields offset limit order st).2
           = net st ++ [wire_call T p (self st) (net st) "crm.lead" "search_read"
                          [domain; VDict kwr]])
  /\ (forall k v, (k, v) ∈ [("offset", offset); ("limit", limit); ("order", order)] ->
      dict_get k kw = (if truthy v then Some v else None)
      /\ dict_get k kwr = (if truthy v then Some v else None))
  /\ (forall k, k ∉ ["offset"; "limit"; "order"] ->
      dict_get k kw = None
      /\ dict_get k kwr = (if String.eqb k "fields"
                           then Some (VList (default [] fields)) else None))
  /\ search_kwargs [] (VInt 0) (VInt 5) (VStr "id desc")
       = [("limit", VInt 5); ("order", VStr "id desc")].
Proof.
  intros kw kwr. split_and!.
  - by rewrite search_leads_execute.
  - by rewrite search_read_leads_execute.
  - intros Hauth. rewrite search_leads_execute, search_read_leads_execute. cbn [snd].
    by rewrite !execute_authenticated_log.
  - intros k v Hk. unfold kw, kwr. rewrite !search_kwargs_lookup.
    set_unfold. destruct Hk as [[= -> ->]|[[= -> ->]|[[= -> ->]|[]]]];
      cbn; by destruct (truthy offset), (truthy limit), (truthy order).
  - intros k Hk. unfold kw, kwr. rewrite !search_kwargs_lookup. cbn [dict_get].
    assert (String.eqb k "order" = false) as -> by (apply String.eqb_neq; set_solver).
    assert (String.eqb k "limit" = false) as -> by (apply String.eqb_neq; set_solver).
    assert (String.eqb k "offset" = false) as -> by (apply String.eqb_neq; set_solver).
    done.
  - reflexivity.
Qed.

Lemma search_sends_truthy_options_only_witness :
  let st := (xmlrpc_authenticate Examples.counting Examples.fresh).2 in
  net (search_leads Examples.counting XmlRpcP Examples.test_domain
         (VInt 0) (VInt 5) (VStr "id desc") st).2
  = net st ++ [XmlRpc "http://localhost:8069/xmlrpc/2/object" "execute_kw"
                 [VStr "odoo"; VInt 2; VStr "admin"; VStr "crm.lead"; VStr "search";
                  VList [Examples.test_domain;
                         VDict [("limit", VInt 5); ("order", VStr "id desc")]]]].
Proof.
  apply (search_sends_truthy_options_only Examples.counting XmlRpcP Examples.test_domain
           None (VInt 0) (VInt 5) (VStr "id desc")
           (xmlrpc_authenticate Examples.counting Examples.fresh).2).
  reflexivity.
Defined.

(** C2, as stated, fails in two ways: a search-read with limit=5 and
    order="id desc" and the rest at default sends the key fields as well,
    and a search called with limit=0 sends no limit. *)
Lemma search_read_sends_fields_and_zero_limit_is_dropped :
  let st := (xmlrpc_authenticate Examples.counting Examples.fresh).2 in
  last (net (search_read_leads_xmlrpc Examples.counting Examples.test_domain None
               (VInt 0) (VInt 5) (VStr "id desc") st).2)
  = Some (XmlRpc "http://localhost:8069/xmlrpc/2/object" "execute_kw"
            [VStr "odoo"; VInt 2; VStr "admin"; VStr "crm.lead"; VStr "search_read";
             VList [Examples.test_domain;
                    VDict [("fields", VList []); ("limit", VInt 5);
                           ("order", VStr "id desc")]]])
  /\ last (net (search_leads_xmlrpc Examples.counting Examples.test_domain
                  (VInt 0) (VInt 0) VNone st).2)
     = Some (XmlRpc "http://localhost:8069/xmlrpc/2/object" "execute_kw"
               [VStr "odoo"; VInt 2; VStr "admin"; VStr "crm.lead"; VStr "search";
                VList [Examples.test_domain; VDict []]]).
Proof. split; reflexivity. Qed.

(** *** Batches *)

Lemma NoDup_lookup_not_later {A} (l : list A) i x :
  NoDup l -> l !! i = Some x -> x ∉ drop (S i) l.
Proof.
  intros Hnd Hi. rewrite <- (take_drop_middle l i x Hi) in Hnd.
  apply NoDup_app in Hnd as (_ & _ & Hnd). by apply NoDup_cons in Hnd as [? _].
Qed.

Lemma mapping_size (m : gmap Z value) (ks : list Z) :
  dom m = list_to_set ks -> NoDup ks -> size m = length ks.
Proof. intros Hdom Hnd. by rewrite <- size_dom, Hdom, size_list_to_set. Qed.

(** C3 (amended).  A batch delete or update runs the single-record
    operation on every item, in order and whatever the earlier items
    returned, and returns a mapping whose keys are the identifiers given:
    one key per distinct identifier, hence exactly n keys when the n
    identifiers are pairwise different, as the keys of the mapping given to
    a batch update are.  The value at a key is the value the single-record
    operation returned for the last item with that identifier. *)
Theorem batch_mapping_has_a_key_per_identifier T p lead_ids leads_updates st :
  (exists m,
     delete_leads_batch T p lead_ids st
       = (Ret m, after_each (delete_lead T p) lead_ids st)
     /\ dom m = list_to_set lead_ids
     /\ (NoDup lead_ids -> size m = length lead_ids)
     /\ (forall i k, lead_ids !! i = Some k -> k ∉ drop (S i) lead_ids ->
         exists v,
           (delete_lead T p k (after_each (delete_lead T p) (take i lead_ids) st)).1
             = Ret v
           /\ m !! k = Some v))
  /\ (NoDup leads_updates.*1 ->
      let f := fun x : Z * value => update_lead T p x.1 x.2 in
      exists m,
        update_leads_batch T p leads_updates st = (Ret m, after_each f leads_updates st)
        /\ dom m = list_to_set leads_updates.*1
        /\ size m = length leads_updates
        /\ (forall i k d, leads_updates !! i = Some (k, d) ->
            exists v,
              (update_lead T p k d (after_each f (take i leads_updates) st)).1 = Ret v
              /\ m !! k = Some v)).
Proof.
  split.
  - destruct (delete_leads_batch_run T p lead_ids st) as (m & Hrun & Hdom & Hin).
    exists m. split_and!; [done|done| |done].
    intros Hnd. by apply mapping_size.
  - intros Hnd f.
    destruct (update_leads_batch_run T p leads_updates st) as (m & Hrun & Hdom & Hin).
    exists m. split_and!; [done|done| |].
    + rewrite (mapping_size m _ Hdom Hnd). by rewrite length_fmap.
    + intros i k d Hi. apply (Hin i k d Hi).
      rewrite fmap_drop. apply (NoDup_lookup_not_later _ i); [done|].
      by rewrite list_lookup_fmap, Hi.
Qed.

Lemma batch_mapping_has_a_key_per_identifier_witness :
  exists m,
    update_leads_batch Examples.agreeing XmlRpcP
      [(7, Examples.lead "A"); (9, Examples.lead "B")] Examples.fresh
    = (Ret m, after_each (fun x : Z * value => update_lead Examples.agreeing XmlRpcP x.1 x.2)
                [(7, Examples.lead "A"); (9, Examples.lead "B")] Examples.fresh)
    /\ dom m = list_to_set [(7, Examples.lead "A"); (9, Examples.lead "B")].*1
    /\ size m = length [(7, Examples.lead "A"); (9, Examples.lead "B")]
    /\ (forall i k d, [(7, Examples.lead "A"); (9, Examples.lead "B")] !! i = Some (k, d) ->
        exists v,
          (update_lead Examples.agreeing XmlRpcP k d
             (after_each (fun x : Z * value => update_lead Examples.agreeing XmlRpcP x.1 x.2)
                (take i [(7, Examples.lead "A"); (9, Examples.lead "B")])
                Examples.fresh)).1 = Ret v
          /\ m !! k = Some v).
Proof.
  apply (batch_mapping_has_a_key_per_identifier Examples.agreeing XmlRpcP []
           [(7, Examples.lead "A"); (9, Examples.lead "B")] Examples.fresh).
  cbn. apply NoDup_cons. split; [set_solver|]. apply NoDup_singleton.
Defined.

(** C3, as stated, fails for a batch delete that is given the same
    identifier twice: two items, one key. *)
Lemma batch_delete_of_a_repeated_identifier :
  exists m,
    (delete_leads_batch_jsonrpc Examples.agreeing [5; 5] Examples.fresh).1 = Ret m
    /\ length [5; 5] = 2%nat
    /\ size m = 1%nat
    /\ m !! 5 = Some (VBool true).
Proof.
  destruct (delete_leads_batch_run Examples.agreeing JsonRpcP [5; 5] Examples.fresh)
    as (m & Hrun & Hdom & Hin).
  exists m. unfold delete_leads_batch_jsonrpc. rewrite Hrun. split_and!; [done|done| |].
  - rewrite <- size_dom, Hdom.
    replace (list_to_set [5; 5] : gset Z) with ({[5]} : gset Z) by set_solver.
    apply size_singleton.
  - destruct (Hin 1%nat 5 eq_refl) as (v & Hv & ->); [set_solver|].
    vm_compute in Hv. by injection Hv as <-.
Qed.

Lemma after_each_authenticated_log T p (f : value -> M state value) model method
    (mk : value -> list value) ds st :
  (forall d st, f d st = execute T p model method (mk d) st) ->
  unauthenticated p (self st) = false ->
  after_each f ds st
    = State (self st) (log_after T p (self st) model method (mk <$> ds) (net st)).
Proof.
  intros Hf. revert st. induction ds as [|d ds IH]; intros st Hauth; cbn.
  - by destruct st.
  - rewrite Hf, execute_authenticated by done. cbn. by rewrite IH.
Qed.

(** C4.  A batch create runs the single-record create once per item, in
    the order given, and returns the identifiers these runs returned --
    the truthy values -- in that order, whatever the other runs did. *)
Theorem batch_create_keeps_the_successes_in_order T p leads_data st :
  create_leads_batch T p leads_data st
    = (Ret (created (each_result (create_lead T p) leads_data st)),
       after_each (create_lead T p) leads_data st)
  /\ length (each_result (create_lead T p) leads_data st) = length leads_data
  /\ (forall i d, leads_data !! i = Some d ->
      each_result (create_lead T p) leads_data st !! i
        = Some (create_lead T p d
                  (after_each (create_lead T p) (take i leads_data) st)).1)
  /\ (unauthenticated p (self st) = false ->
      after_each (create_lead T p) leads_data st
        = State (self st)
            (log_after T p (self st) "crm.lead" "create"
               ((fun d => [VList [d]]) <$> leads_data) (net st))).
Proof.
  split_and!.
  - apply create_leads_batch_run.
  - apply each_result_length.
  - intros i d Hi. by apply each_result_lookup.
  - apply after_each_authenticated_log. intros d st0. apply create_lead_execute.
Qed.

Lemma batch_create_keeps_the_successes_in_order_witness :
  create_leads_batch Examples.flaky XmlRpcP
    [Examples.lead "A"; Examples.lead "B"; Examples.lead "C"] Examples.fresh
  = (Ret [VInt 101],
     after_each (create_lead Examples.flaky XmlRpcP)
       [Examples.lead "A"; Examples.lead "B"; Examples.lead "C"] Examples.fresh)
  /\ after_each (create_lead Examples.counting JsonRpcP)
       [Examples.lead "A"; Examples.lead "B"]
       (jsonrpc_authenticate Examples.counting Examples.fresh).2
     = State (self (jsonrpc_authenticate Examples.counting Examples.fresh).2)
         (log_after Examples.counting JsonRpcP
            (self (jsonrpc_authenticate Examples.counting Examples.fresh).2)
            "crm.lead" "create" [[VList [Examples.lead "A"]]; [VList [Examples.lead "B"]]]
            (net (jsonrpc_authenticate Examples.counting Examples.fresh).2)).
Proof.
  split.
  - apply (batch_create_keeps_the_successes_in_order Examples.flaky XmlRpcP
             [Examples.lead "A"; Examples.lead "B"; Examples.lead "C"] Examples.fresh).
  - apply (batch_create_keeps_the_successes_in_order Examples.counting JsonRpcP
             [Examples.lead "A"; Examples.lead "B"]
             (jsonrpc_authenticate Examples.counting Examples.fresh).2).
    reflexivity.
Defined.

(** *** Failure values *)

(** C5.  On an unreachable server [create_lead] and [read_lead] return
    None, and so do [update_lead] and [delete_lead], whose documented
    result is a boolean: they hand back what execute returned, and execute
    returns None on failure. *)
Theorem update_and_delete_return_none_on_failure :
  (create_lead_xmlrpc Examples.unreachable (Examples.lead "A") Examples.fresh).1 = Ret VNone
  /\ (read_lead_xmlrpc Examples.unreachable 7 None Examples.fresh).1 = Ret VNone
  /\ (update_lead_xmlrpc Examples.unreachable 7 (Examples.lead "A") Examples.fresh).1
     = Ret VNone
  /\ (update_lead_jsonrpc Examples.unreachable 7 (Examples.lead "A") Examples.fresh).1
     = Ret VNone
  /\ (delete_lead_xmlrpc Examples.unreachable 7 Examples.fresh).1 = Ret VNone
  /\ (delete_lead_jsonrpc Examples.unreachable 7 Examples.fresh).1 = Ret VNone
  /\ VNone <> VBool false.
Proof. split_and!; try reflexivity. discriminate. Qed.













(** *** The JSON decoder

    The budget of [Json.loads] is never used up: the decoder fails with a
    decoding error or returns. *)

Section Decoder.
Import Json.

Lemma skip_ws_length s : (String.length (skip_ws s) <= String.length s)%nat.
Proof. induction s as [|c s IH]; cbn; [lia|]. destruct (is_ws c); cbn; lia. Qed.

Lemma span_digits_length s ds r :
  span_digits s = (ds, r) -> (String.length r <= String.length s)%nat.
Proof.
  revert ds r. induction s as [|c s IH]; cbn; intros ds r.
  - intros [= <- <-]. cbn. lia.
  - destruct (is_digit c).
    + destruct (span_digits s) as [ds' r'] eqn:E. intros [= <- <-].
      specialize (IH _ _ eq_refl). lia.
    + intros [= <- <-]. cbn. lia.
Qed.

Lemma strip_prefix_length p s r :
  strip_prefix p s = Some r -> String.length s = (String.length p + String.length r)%nat.
Proof.
  revert s. induction p as [|a p IH]; intros [|b s]; cbn; try done.
  - by intros [= <-].
  - by intros [= <-].
  - destruct (Ascii.eqb a b); [|done]. intros H. by rewrite (IH _ H).
Qed.

Lemma scan_frac_length s f r :
  scan_frac s = (f, r) -> (String.length r <= String.length s)%nat.
Proof.
  unfold scan_frac. destruct s as [|c s]; [intros [= <- <-]; cbn; lia|].
  destruct (Ascii.eqb c "."); [|intros [= <- <-]; cbn; lia].
  destruct (span_digits s) as [[|d ds] r'] eqn:E; intros [= <- <-]; [cbn; lia|].
  apply span_digits_length in E. cbn. lia.
Qed.

Lemma scan_exp_length s f r :
  scan_exp s = (f, r) -> (String.length r <= String.length s)%nat.
Proof.
  unfold scan_exp. destruct s as [|e s]; [intros [= <- <-]; cbn; lia|].
  destruct (_ || _); [|intros [= <- <-]; cbn; lia].
  destruct s as [|c s'].
  - cbn. intros [= <- <-]. cbn. lia.
  - destruct (_ || _).
    + destruct (span_digits s') as [[|d ds] r'] eqn:E; intros [= <- <-]; [cbn; lia|].
      apply span_digits_length in E. cbn. lia.
    + destruct (span_digits (String c s')) as [[|d ds] r'] eqn:E; intros [= <- <-];
        [cbn; lia|].
      apply span_digits_length in E. cbn in *. lia.
Qed.

Lemma scan_int_length s i r :
  scan_int s = Some (i, r) -> (String.length r < String.length s)%nat.
Proof.
  unfold scan_int.
  assert (forall s1 sign, (String.length s1 <= String.length s)%nat ->
            match s1 with
            | String c r0 =>
                if Ascii.eqb c "0" then Some ((sign +:+ "0")%string, r0)
                else if is_digit c
                     then let '(ds, r') := span_digits r0 in Some (sign +:+ String c ds, r')
                     else None
            | EmptyString => None
            end = Some (i, r) -> (String.length r < String.length s)%nat) as Haux.
  { intros [|c r0] sign Hle; [done|]. cbn in Hle.
    destruct (Ascii.eqb c "0"); [intros [= <- <-]; lia|].
    destruct (is_digit c); [|done].
    destruct (span_digits r0) as [ds r'] eqn:E. intros [= <- <-].
    apply span_digits_length in E. lia. }
  destruct s as [|c s']; [done|].
  destruct (Ascii.eqb c "-").
  - apply (Haux s' "-"%string). cbn. lia.
  - apply (Haux (String c s') EmptyString). cbn. lia.
Qed.

Lemma scan_number_length s v r :
  scan_number s = Some (v, r) -> (String.length r < String.length s)%nat.
Proof.
  unfold scan_number. destruct (scan_int s) as [[i r0]|] eqn:Ei; [|done].
  destruct (scan_frac r0) as [f r1] eqn:Ef. destruct (scan_exp r1) as [e r2] eqn:Ee.
  apply scan_int_length in Ei. apply scan_frac_length in Ef. apply scan_exp_length in Ee.
  destruct f, e; intros [= <- <-]; lia.
Qed.

Lemma scan_constant_length s v r :
  scan_constant s = Some (v, r) -> (String.length r < String.length s)%nat.
Proof.
  unfold scan_constant.
  repeat match goal with
  | |- context [strip_prefix ?p s] =>
      let E := fresh "E" in
      destruct (strip_prefix p s) eqn:E;
      [apply strip_prefix_length in E; cbn in E; intros [= <- <-]; lia|]
  | |- context [scan_number s] =>
      let E := fresh "E" in
      destruct (scan_number s) as [[??]|] eqn:E;
      [apply scan_number_length in E; intros [= <- <-]; lia|]
  end.
  done.
Qed.

Lemma low_surrogate_length s lo r :
  low_surrogate s = Some (lo, r) -> (String.length r <= String.length s)%nat.
Proof.
  unfold low_surrogate.
  destruct s as [|e [|u [|a [|b [|c [|d r0]]]]]]; try done.
  destruct (_ && _); [|done]. destruct (hex4 a b c d); [|done].
  destruct (_ && _); [|done]. intros [= <- <-]. cbn. lia.
Qed.

Lemma scanstring_within n s : within (String.length s) (
  match scanstring n s with
  | Ret (str, rest) => Ret (VStr str, rest)
  | Raise e => Raise e
  end).
Proof.
  revert s. induction n as [|n IH]; intros s; cbn; [done|].
  destruct s as [|c s]; [done|].
  destruct (Ascii.eqb c dquote); [cbn; lia|].
  destruct (Ascii.eqb c backslash).
  - destruct s as [|esc s]; [done|].
    destruct (Ascii.eqb esc "u").
    + destruct s as [|a [|b [|x [|d r]]]]; try done.
      destruct (hex4 a b x d) as [hi|]; [|done].
      destruct (if ((55296 <=? hi) && (hi <=? 56319))%Z then low_surrogate r else None)
        as [[lo r']|] eqn:E.
      * assert (String.length r' <= String.length r)%nat.
        { destruct ((55296 <=? hi) && (hi <=? 56319))%Z; [|done].
          by eapply low_surrogate_length. }
        specialize (IH r'). destruct (scanstring n r') as [[str rest]|e]; cbn in *; [lia|done].
      * specialize (IH r). destruct (scanstring n r) as [[str rest]|e]; cbn in *; [lia|done].
    + destruct (unescape esc); [|done].
      specialize (IH s). destruct (scanstring n s) as [[str rest]|e]; cbn in *; [lia|done].
  - destruct (nat_of_ascii c <=? 31)%nat; [done|].
    specialize (IH s). destruct (scanstring n s) as [[str rest]|e]; cbn in *; [lia|done].
Qed.

Lemma scan_within fuel :
  (forall s, (2 * String.length s < fuel)%nat ->
     within (String.length s) (scan_once fuel s))
  /\ (forall acc s, (2 * String.length s + 1 < fuel)%nat ->
        within (String.length s) (scan_members fuel acc s))
  /\ (forall acc s, (2 * String.length s + 1 < fuel)%nat ->
        within (String.length s) (scan_elements fuel acc s)).
Proof.
  induction fuel as [|fuel (IHo & IHm & IHe)]; [split_and!; intros; lia|].
  split_and!.
  - intros [|c r] Hf; cbn; [done|]. cbn in Hf.
    destruct (Ascii.eqb c dquote).
    { generalize (scanstring_within (String.length r) r).
      destruct (scanstring _ r) as [[str rest]|e]; cbn; [lia|done]. }
    pose proof (skip_ws_length r) as Hws.
    destruct (Ascii.eqb c "{").
    { destruct (skip_ws r) as [|c' r'] eqn:E.
      - specialize (IHm [] EmptyString). cbn in IHm.
        destruct (scan_members fuel [] "") as [[??]|?]; cbn in *; [lia|apply IHm; lia].
      - cbn in Hws. destruct (Ascii.eqb c' "}"); [cbn; lia|].
        specialize (IHm [] (String c' r')). cbn in IHm.
        destruct (scan_members fuel [] _) as [[??]|?]; cbn in *; [lia|apply IHm; lia]. }
    destruct (Ascii.eqb c "[").
    { destruct (skip_ws r) as [|c' r'] eqn:E.
      - specialize (IHe [] EmptyString). cbn in IHe.
        destruct (scan_elements fuel [] "") as [[??]|?]; cbn in *; [lia|apply IHe; lia].
      - cbn in Hws. destruct (Ascii.eqb c' "]"); [cbn; lia|].
        specialize (IHe [] (String c' r')). cbn in IHe.
        destruct (scan_elements fuel [] _) as [[??]|?]; cbn in *; [lia|apply IHe; lia]. }
    destruct (scan_constant (String c r)) as [[v rest]|] eqn:E; [|done].
    apply scan_constant_length in E. cbn in *. lia.
  - intros acc [|q r] Hf; cbn; [done|]. cbn in Hf.
    destruct (Ascii.eqb q dquote); [|done].
    generalize (scanstring_within (String.length r) r).
    destruct (scanstring _ r) as [[key r1]|e]; cbn; [intros H1|done].
    pose proof (skip_ws_length r1) as Hws1.
    destruct (skip_ws r1) as [|colon r2]; [done|]. cbn in Hws1.
    destruct (Ascii.eqb colon ":"); [|done].
    pose proof (skip_ws_length r2) as Hws2.
    specialize (IHo (skip_ws r2)).
    destruct (scan_once fuel (skip_ws r2)) as [[v r3]|e]; cbn in *; [|apply IHo; lia].
    pose proof (skip_ws_length r3) as Hws3.
    destruct (skip_ws r3) as [|d r4]; [done|]. cbn in Hws3.
    destruct (Ascii.eqb d "}"); [cbn; lia|].
    destruct (Ascii.eqb d ","); [|done].
    pose proof (skip_ws_length r4) as Hws4.
    specialize (IHm (dict_set key v acc) (skip_ws r4)).
    destruct (scan_members fuel _ (skip_ws r4)) as [[??]|?]; cbn in *; [lia|apply IHm; lia].
  - intros acc s Hf; cbn.
    specialize (IHo s).
    destruct (scan_once fuel s) as [[v r]|e]; cbn in *; [|apply IHo; lia].
    pose proof (skip_ws_length r) as Hws.
    destruct (skip_ws r) as [|d r']; [done|]. cbn in Hws.
    destruct (Ascii.eqb d "]"); [cbn; lia|].
    destruct (Ascii.eqb d ","); [|done].
    pose proof (skip_ws_length r') as Hws'.
    specialize (IHe (acc ++ [v]) (skip_ws r')).
    destruct (scan_elements fuel _ (skip_ws r')) as [[??]|?]; cbn in *; [lia|apply IHe; lia].
Qed.

Lemma loads_never_exhausts_its_budget s : loads s <> Raise RecursionError.
Proof.
  unfold loads.
  pose proof (skip_ws_length s) as Hws.
  destruct (scan_within (S (2 * String.length s))) as (Ho & _).
  specialize (Ho (skip_ws s)).
  destruct (scan_once _ (skip_ws s)) as [[v rest]|e]; cbn in *.
  - by destruct (skip_ws rest).
  - intros [= ->]. apply Ho; [lia|done].
Qed.

End Decoder.

(** *** The extraction block of the assistant *)

Lemma upto_last_close_none s :
  Chatbot.upto_last_close s = None -> forall b c, s <> b +:+ String "}" c.
Proof.
  induction s as [|x s IH]; cbn; intros Hnone b c.
  - by destruct b.
  - destruct (Chatbot.upto_last_close s); [done|].
    destruct (Ascii.eqb_spec x "}"); [done|].
    destruct b as [|y b]; cbn; intros [= ? ?]; [done|]. by eapply IH.
Qed.

Lemma upto_last_close_some s m :
  Chatbot.upto_last_close s = Some m -> exists b c, s = b +:+ String "}" c.
Proof.
  revert m. induction s as [|x s IH]; cbn; intros m Hsome; [done|].
  destruct (Chatbot.upto_last_close s) as [m'|].
  - destruct (IH m' eq_refl) as (b & c & ->). by exists (String x b), c.
  - destruct (Ascii.eqb_spec x "}") as [->|]; [|done]. by exists "", s.
Qed.

Lemma re_search_none s : Chatbot.re_search s = None <-> ~ has_braced_block s.
Proof.
  induction s as [|x s IH]; cbn.
  - split; [|done]. intros _ (a & b & c & H). by destruct a.
  - split.
    + intros Hnone (a & b & c & H). destruct a as [|y a]; cbn in H.
      * injection H as -> ->. cbn in Hnone.
        destruct (Chatbot.upto_last_close (b +:+ String "}" c)) eqn:E; [done|].
        by eapply upto_last_close_none.
      * injection H as <- ->. apply IH; [|by exists a, b, c].
        destruct (Ascii.eqb x "{"); [|done].
        by destruct (Chatbot.upto_last_close _).
    + intros Hno.
      assert (Chatbot.re_search s = None) as Hs.
      { apply IH. intros (a & b & c & ->). apply Hno. by exists (String x a), b, c. }
      destruct (Ascii.eqb_spec x "{") as [->|]; [|done].
      destruct (Chatbot.upto_last_close s) as [m|] eqn:E; [|done].
      destruct (upto_last_close_some s m E) as (b & c & ->).
      destruct Hno. by exists "", b, c.
Qed.

Ltac unfold_chat :=
  unfold Chatbot.extract_and_create, Chatbot.connect_and_create, Chatbot.lead_fields,
    Chatbot.ServerProxy, Chatbot.proxy_call, Chatbot.show, Chatbot.set_lead_info,
    try_except, bind, ret, raise, lift, modify in *.

Lemma connect_and_create_lead_info cfg T extracted st :
  Chatbot.lead_info (Chatbot.connect_and_create cfg T extracted st).2
    = Chatbot.lead_info st.
Proof.
  unfold_chat. destruct st as [info page log]. cbn.
  repeat (case_step; simplify_eq; cbn in *; try reflexivity).
Qed.

(** C7.  From the answer
    [Here is the info: {"name":"Alice","email":"a@x.com","phone":null,"requirements":"CRM demo"} Thanks]
    the block extracts the braced text and parses it to the object it
    denotes, which becomes the lead information.  From an answer without
    an opening brace followed by a closing brace the search finds nothing:
    the block shows the error "Failed to extract information." and makes
    no request to the server. *)
Theorem extraction_parses_the_braced_block cfg T generate_content context st text :
  (Chatbot.re_search Examples.alice_reply
     = Some (Chatbot.dq "{'name':'Alice','email':'a@x.com','phone':null,'requirements':'CRM demo'}")
   /\ Json.loads (Chatbot.dq "{'name':'Alice','email':'a@x.com','phone':null,'requirements':'CRM demo'}")
      = Ret Examples.alice
   /\ (generate_content (Chatbot.extract_prompt context) = Ret Examples.alice_reply ->
       Chatbot.lead_info
         (Chatbot.extract_and_create cfg T generate_content context st).2
       = Examples.alice))
  /\ (~ has_braced_block text ->
      generate_content (Chatbot.extract_prompt context) = Ret text ->
      Chatbot.re_search text = None
      /\ Chatbot.extract_and_create cfg T generate_content context st
         = (Ret tt,
            Chatbot.State (Chatbot.lead_info st)
              (Chatbot.page st
                 ++ [Chatbot.st_error "Failed to extract information." None])
              (Chatbot.net st))).
Proof.
  split; [split_and!|].
  - reflexivity.
  - reflexivity.
  - intros Hgen.
    assert (Chatbot.extract_and_create cfg T generate_content context st
            = let st1 := Chatbot.State Examples.alice (Chatbot.page st) (Chatbot.net st) in
              (Ret tt, (Chatbot.connect_and_create cfg T Examples.alice st1).2)) as ->.
    { unfold Chatbot.extract_and_create, try_except, bind at 1, lift at 1.
      rewrite Hgen.
      replace (Chatbot.re_search Examples.alice_reply)
        with (Some (Chatbot.dq "{'name':'Alice','email':'a@x.com','phone':null,'requirements':'CRM demo'}"))
        by reflexivity.
      unfold bind at 1, lift at 1.
      replace (Json.loads _) with (Ret Examples.alice) by reflexivity.
      unfold bind at 1, Chatbot.set_lead_info, modify. cbn zeta.
      destruct (Chatbot.connect_and_create cfg T Examples.alice _) as [[[]|e] st'] eqn:E;
        [done|].
      exfalso. revert E. unfold_chat. destruct st as [info page log]. cbn.
      repeat (case_step; simplify_eq; cbn in *; try done). }
    cbn zeta. cbn [snd]. by rewrite connect_and_create_lead_info.
  - intros Hno Hgen. apply re_search_none in Hno. split; [done|].
    unfold Chatbot.extract_and_create, try_except, bind, lift.
    by rewrite Hgen, Hno.
Qed.

Lemma extraction_parses_the_braced_block_witness :
  Chatbot.lead_info
    (Chatbot.extract_and_create Examples.sidebar Examples.counting
       (fun _ => Ret Examples.alice_reply) "user: Hi" Examples.blank).2
  = Examples.alice
  /\ Chatbot.extract_and_create Examples.sidebar Examples.counting
       (fun _ => Ret "I could not find any details.") "user: Hi" Examples.blank
     = (Ret tt,
        Chatbot.State VNone
          [Chatbot.st_error "Failed to extract information." None] []).
Proof.
  split.
  - apply (extraction_parses_the_braced_block Examples.sidebar Examples.counting
             (fun _ => Ret Examples.alice_reply) "user: Hi" Examples.blank "").
    reflexivity.
  - apply (extraction_parses_the_braced_block Examples.sidebar Examples.counting
             (fun _ => Ret "I could not find any details.") "user: Hi" Examples.blank
             "I could not find any details.").
    + apply re_search_none. reflexivity.
    + reflexivity.
Defined.

(** *** Execute and the session *)



(** C9. When the execute call of a search or of a search-read returns None,
    the operation returns the empty list: taking the length of None raises
    a TypeError inside the guarded block, and the handler returns []. *)
Theorem search_returns_empty_list_on_null T p domain fields offset limit order st st' :
  (exists e, py_len VNone = Raise e)
  /\ (execute T p "crm.lead" "search"
        [domain; VDict (search_kwargs [] offset limit order)] st = (Ret VNone, st') ->
      search_leads T p domain offset limit order st = (Ret (VList []), st'))
  /\ (execute T p "crm.lead" "search_read"
        [domain; VDict (search_kwargs [("fields", VList (default [] fields))]
                          offset limit order)] st = (Ret VNone, st') ->
      search_read_leads T p domain fields offset limit order st = (Ret (VList []), st')).
Proof.
  split; [by eexists|]. split; intros E.
  - rewrite search_leads_execute, E. reflexivity.
  - rewrite search_read_leads_execute, E. reflexivity.
Qed.

Lemma search_returns_empty_list_on_null_witness :
  let st' := (execute Examples.unreachable JsonRpcP "crm.lead" "search"
                [Examples.test_domain; VDict []] Examples.fresh).2 in
  search_leads Examples.unreachable JsonRpcP Examples.test_domain
    (VInt 0) VNone VNone Examples.fresh = (Ret (VList []), st')
  /\ search_read_leads Examples.unreachable JsonRpcP Examples.test_domain None
       (VInt 0) VNone VNone Examples.fresh = (Ret (VList []), st').
Proof.
  pose proof (search_returns_empty_list_on_null Examples.unreachable JsonRpcP
                Examples.test_domain None (VInt 0) VNone VNone Examples.fresh
                (execute Examples.unreachable JsonRpcP "crm.lead" "search"
                   [Examples.test_domain; VDict []] Examples.fresh).2)
    as (_ & Hsearch & Hread).
  split; [apply Hsearch|apply Hread]; reflexivity.
Defined.

(** C10. Whatever an operation does and however it ends, the session keeps
    the url, db, username and password (and the JSON-RPC URL derived from
    the url) it was constructed with.  The other fields -- uid, session_id
    and the two XML-RPC proxies -- change by runs of an authenticate method
    only: an operation other than authenticate leaves an authenticated
    session as it is, and in general the session after an operation is
    reached from the session before it by runs of authenticate. *)
Theorem session_settings_are_never_changed T op st url0 db0 username0 password0 ops :
  (let s' := self (run T op st).2 in
   same_settings (self st) s'
   /\ rtc (auth_step T) (self st) s'
   /\ (is_authenticate op = false ->
       unauthenticated (protocol_of op) (self st) = false -> s' = self st))
  /\ (let s' := self (run_all T ops (State (__init__ url0 db0 username0 password0) [])) in
      url s' = rstrip_slash url0 /\ db s' = db0 /\ username s' = username0
      /\ password s' = password0).
Proof.
  split; [apply run_frame|].
  destruct (run_all_settings T ops (State (__init__ url0 db0 username0 password0) []))
    as (Hu & Hd & Hn & Hp & _).
  cbn in *. by rewrite Hu, Hd, Hn, Hp.
Qed.

Lemma session_settings_are_never_changed_witness :
  let st := (run Examples.counting (Authenticate XmlRpcP) Examples.fresh).2 in
  self (run Examples.counting (CreateLead XmlRpcP (Examples.lead "A")) st).2 = self st
  /\ url (self (run_all Examples.counting
                  [Authenticate JsonRpcP; SearchLeads JsonRpcP Examples.test_domain
                                            (VInt 0) VNone VNone]
                  (State (__init__ "http://localhost:8069/" "odoo" "admin" "admin") [])))
     = "http://localhost:8069".
Proof.
  split.
  - apply (session_settings_are_never_changed Examples.counting
             (CreateLead XmlRpcP (Examples.lead "A"))
             (run Examples.counting (Authenticate XmlRpcP) Examples.fresh).2
             "" "" "" "" []); reflexivity.
  - apply (session_settings_are_never_changed Examples.counting
             (Authenticate JsonRpcP) Examples.fresh
             "http://localhost:8069/" "odoo" "admin" "admin"
             [Authenticate JsonRpcP;
              SearchLeads JsonRpcP Examples.test_domain (VInt 0) VNone VNone]).
Defined.

(** ** Further properties

    What the client and the chatbot script do beyond the statements above:
    the constructor, the two logins, the calls and the requests they make,
    the extraction block case by case, and one run of the script. *)

Import Facts.


(** *** Construction *)

Lemma rstrip_slash_split s : exists k, s = rstrip_slash s +:+ slashes k.
Proof.
  induction s as [|c s (k & IH)]; [by exists 0%nat|]. cbn.
  destruct (rstrip_slash s) as [|c' r] eqn:E.
  - destruct (Ascii.eqb_spec c "/") as [->|].
    + exists (S k). cbn in *. by rewrite IH at 1.
    + exists k. cbn in *. by rewrite IH at 1.
  - exists k. cbn in *. by rewrite IH at 1.
Qed.

Lemma rstrip_slash_no_trailing s v : rstrip_slash s <> v +:+ "/".
Proof.
  revert v. induction s as [|c s IH]; intros v; cbn.
  - by destruct v.
  - destruct (rstrip_slash s) as [|c' r] eqn:E.
    + destruct (Ascii.eqb_spec c "/") as [->|Hc].
      * by destruct v.
      * destruct v as [|x v]; cbn.
        -- by intros [= ->].
        -- intros [= _ H]. by destruct v.
    + destruct v as [|x v]; cbn; [by intros [= ? ?]|].
      intros [= -> H]. by apply (IH v).
Qed.

Lemma rstrip_slash_app_slash s : rstrip_slash (s +:+ "/") = rstrip_slash s.
Proof.
  induction s as [|c s IH]; [done|].
  change (rstrip_slash (String c (s +:+ "/")) = rstrip_slash (String c s)).
  cbn. by rewrite IH.
Qed.

(** X1. The constructor drops every trailing slash of the URL and nothing
    else: the URL given is the stored one followed by slashes, the stored
    one ends in no slash, the JSON-RPC endpoint is the stored URL followed
    by /jsonrpc, one more slash on the URL given makes no difference, and
    a new session is unauthenticated for both protocols. *)
Theorem trailing_slashes_of_the_url_are_dropped u d n pw :
  let s := __init__ u d n pw in
  (exists k, u = url s +:+ slashes k)
  /\ (forall v, url s <> v +:+ "/")
  /\ jsonrpc_url s = url s +:+ "/jsonrpc"
  /\ __init__ (u +:+ "/") d n pw = s
  /\ (forall p, unauthenticated p s = true).
Proof.
  cbn. split_and!.
  - apply rstrip_slash_split.
  - apply rstrip_slash_no_trailing.
  - done.
  - unfold __init__. by rewrite rstrip_slash_app_slash.
  - by intros [].
Qed.

(** *** Authentication *)

(** X2. [xmlrpc_authenticate] returns True exactly when both proxies can
    be built and the server answers [authenticate] with a truthy value.
    It then holds the two proxies and that value as uid, after exactly one
    request; it never touches the session id. *)
Theorem xmlrpc_authenticate_succeeds_iff T st :
  let s := self st in
  let common := url s +:+ "/xmlrpc/2/common" in
  let object := url s +:+ "/xmlrpc/2/object" in
  let params := [VStr (db s); VStr (username s); VStr (password s); VDict []] in
  let answer := xmlrpc_call T (net st) common "authenticate" params in
  let st' := (xmlrpc_authenticate T st).2 in
  ((xmlrpc_authenticate T st).1 = Ret true <->
     server_proxy T common = Ret tt /\ server_proxy T object = Ret tt
     /\ exists r, answer = Ret r /\ truthy r = true)
  /\ (forall r, (xmlrpc_authenticate T st).1 = Ret true -> answer = Ret r ->
      self st' = set_xmlrpc_models (Some object)
                   (set_uid r (set_xmlrpc_common (Some common) s))
      /\ net st' = net st ++ [XmlRpc common "authenticate" params])
  /\ session_id (self st') = session_id s.
Proof.
  cbn zeta. rewrite xmlrpc_authenticate_cases.
  destruct (server_proxy T (url (self st) +:+ "/xmlrpc/2/common")) as [[]|e1].
  2: { split_and!; [split; [done|by intros ([=] & _)]|done|done]. }
  destruct (xmlrpc_call T _ _ _ _) as [r|e2].
  2: { split_and!; [split; [done|by intros (_ & _ & r & [=] & _)]|done|done]. }
  destruct (truthy r) eqn:Hr.
  2: { split_and!; [split; [done|]|done|done].
       intros (_ & _ & r' & [= <-] & Hr'). congruence. }
  destruct (server_proxy T (url (self st) +:+ "/xmlrpc/2/object")) as [[]|e3].
  2: { split_and!; [split; [done|by intros (_ & [=] & _)]|done|done]. }
  split_and!; [split; [|done]|by intros r' _ [= <-]|done].
  intros _. split_and!; [done|done|by exists r].
Qed.

Lemma xmlrpc_authenticate_succeeds_iff_witness :
  uid (self (xmlrpc_authenticate Examples.counting Examples.fresh).2) = VInt 2.
Proof.
  destruct (xmlrpc_authenticate_succeeds_iff Examples.counting Examples.fresh)
    as (_ & Hpost & _).
  destruct (Hpost (VInt 2) eq_refl eq_refl) as [Hself _].
  rewrite Hself. reflexivity.
Defined.

(** X3. A falsy answer to the XML-RPC [authenticate] call is stored as the
    uid before it is tested: the method returns False and the session is
    unauthenticated for both protocols afterwards, whatever uid it held. *)
Theorem rejected_xmlrpc_authentication_logs_out T st r :
  let s := self st in
  let common := url s +:+ "/xmlrpc/2/common" in
  server_proxy T common = Ret tt ->
  xmlrpc_call T (net st) common "authenticate"
    [VStr (db s); VStr (username s); VStr (password s); VDict []] = Ret r ->
  truthy r = false ->
  let st' := (xmlrpc_authenticate T st).2 in
  (xmlrpc_authenticate T st).1 = Ret false
  /\ uid (self st') = r
  /\ (forall p, unauthenticated p (self st') = true).
Proof.
  cbn zeta. intros Hproxy Hcall Hr. rewrite xmlrpc_authenticate_cases, Hproxy, Hcall, Hr.
  cbn. split_and!; [done|done|]. intros []; cbn; by rewrite Hr.
Qed.

Lemma rejected_xmlrpc_authentication_logs_out_witness :
  let st := (xmlrpc_authenticate Examples.counting Examples.fresh).2 in
  let st' := (xmlrpc_authenticate Examples.rejecting st).2 in
  uid (self st) = VInt 2
  /\ (xmlrpc_authenticate Examples.rejecting st).1 = Ret false
  /\ uid (self st') = VBool false
  /\ (forall p, unauthenticated p (self st') = true).
Proof.
  split; [reflexivity|].
  apply (rejected_xmlrpc_authentication_logs_out Examples.rejecting
           (xmlrpc_authenticate Examples.counting Examples.fresh).2 (VBool false));
    reflexivity.
Defined.

(** X4. [jsonrpc_authenticate] always sends exactly one POST, without
    cookies.  It returns True exactly when the body decoded has a truthy
    result and the answer holds at most one session cookie: the uid is
    then the result and the session id the value of that cookie, None
    when there is none or it is empty.  When the answer holds two session
    cookies the lookup raises after the uid has been stored: the method
    returns False, with the new uid and the old session id.  Without a
    truthy result the session is as it was. *)
Theorem jsonrpc_authenticate_succeeds_iff T st :
  let s := self st in
  let o := requests_post T (net st) (jsonrpc_url s) (login_payload s) None in
  let st' := (jsonrpc_authenticate T st).2 in
  net st' = net st ++ [HttpPost (jsonrpc_url s) (login_payload s) None]
  /\ ((jsonrpc_authenticate T st).1 = Ret true <->
      exists resp r cookie,
        o = Ret resp /\ result_of o = Some r /\ truthy r = true
        /\ cookie_get "session_id" (cookies resp) = Ret cookie)
  /\ (forall resp r cookie,
        o = Ret resp -> result_of o = Some r -> truthy r = true ->
        cookie_get "session_id" (cookies resp) = Ret cookie ->
        self st' = set_session_id cookie (set_uid r s))
  /\ (forall resp r e,
        o = Ret resp -> result_of o = Some r -> truthy r = true ->
        cookie_get "session_id" (cookies resp) = Raise e ->
        (jsonrpc_authenticate T st).1 = Ret false /\ self st' = set_uid r s)
  /\ ((forall r, result_of o = Some r -> truthy r = false) -> self st' = s).
Proof.
  cbn zeta. rewrite jsonrpc_authenticate_cases. cbn zeta.
  unfold cookie_conflict, session_cookie.
  destruct (requests_post T _ _ _ _) as [resp|e0] eqn:Ho.
  2: { cbn. split_and!; try done. split; [done|]. by intros (? & ? & ? & [=] & _). }
  destruct (result_of (Ret resp)) as [r|] eqn:Hr.
  2: { split_and!; try done. split; [done|]. by intros (? & ? & ? & _ & [=] & _). }
  destruct (truthy r) eqn:Ht.
  2: { split_and!; try done.
       - split; [done|]. intros (? & ? & ? & _ & [= <-] & ? & _). congruence.
       - intros ??? _ [= <-]. congruence.
       - intros ??? _ [= <-]. congruence. }
  destruct (cookie_get "session_id" (cookies resp)) as [cookie|e] eqn:Hc.
  - split_and!; try done.
    + split; [|done]. intros _. by exists resp, r, cookie.
    + intros ??? [= <-] [= <-] _. rewrite Hc. by intros [= <-].
    + intros ??? [= <-] _ _. by rewrite Hc.
    + intros Hno. specialize (Hno r eq_refl). congruence.
  - split_and!; try done.
    + split; [done|]. intros (? & ? & ? & [= <-] & _ & _ & Hc'). congruence.
    + intros ??? [= <-] _ _. by rewrite Hc.
    + intros ??? _ [= <-] _ _. done.
    + intros Hno. specialize (Hno r eq_refl). congruence.
Qed.

Lemma jsonrpc_authenticate_succeeds_iff_witness :
  session_id (self (jsonrpc_authenticate Examples.counting Examples.fresh).2)
  = Some "0f3a"
  /\ uid (self (jsonrpc_authenticate Examples.counting Examples.fresh).2) = VInt 2.
Proof.
  destruct (jsonrpc_authenticate_succeeds_iff Examples.counting Examples.fresh)
    as (_ & _ & Hpost & _).
  rewrite (Hpost _ (VInt 2) (Some "0f3a") eq_refl eq_refl eq_refl eq_refl).
  split; reflexivity.
Defined.

Lemma jsonrpc_authenticate_true T st st1 :
  jsonrpc_authenticate T st = (Ret true, st1) ->
  let s := self st in
  let o := requests_post T (net st) (jsonrpc_url s) (login_payload s) None in
  exists r,
    truthy r = true
    /\ st1 = State (set_session_id (session_cookie o) (set_uid r s))
               (net st ++ [HttpPost (jsonrpc_url s) (login_payload s) None]).
Proof.
  rewrite jsonrpc_authenticate_cases. cbn zeta.
  destruct (result_of _) as [r|]; [|done].
  destruct (truthy r) eqn:Hr; [|done].
  destruct (cookie_conflict _); [done|]. intros [= <-]. by exists r.
Qed.

(** X5. Both protocols share the uid.  After a successful [authenticate]
    an [execute] of either protocol goes straight to its one request,
    unless the login was JSON-RPC, the call is XML-RPC and the session has
    no object proxy yet: then the session still counts as unauthenticated
    for XML-RPC. *)
Theorem authentication_is_shared_between_protocols T p q model method args st st1 :
  authenticate T p st = (Ret true, st1) ->
  (p = XmlRpcP \/ q = JsonRpcP \/ is_Some (xmlrpc_models (self st)) ->
   execute T q model method args st1
   = (Ret (wire_answer T q (self st1) (net st1) model method args),
      State (self st1)
        (net st1 ++ [wire_call T q (self st1) (net st1) model method args])))
  /\ (p = JsonRpcP -> xmlrpc_models (self st) = None ->
      unauthenticated XmlRpcP (self st1) = true).
Proof.
  intros Hauth. split.
  - intros Hcond. apply execute_authenticated.
    pose proof (authenticate_success T p st st1 Hauth) as Hok.
    destruct p, q; cbn [authenticate unauthenticated] in *; try done.
    + apply orb_false_elim in Hok. tauto.
    + destruct Hcond as [|[|Hm]]; try done.
      rewrite Hok. cbn.
      destruct (jsonrpc_authenticate_true T st st1 Hauth) as (r & _ & ->). cbn.
      by destruct Hm as [x ->].
  - intros -> Hm. cbn [authenticate unauthenticated] in *.
    destruct (jsonrpc_authenticate_true T st st1 Hauth) as (r & _ & ->). cbn.
    rewrite Hm. cbn. by rewrite orb_true_r.
Qed.

Lemma authentication_is_shared_between_protocols_witness :
  let st1 := (xmlrpc_authenticate Examples.counting Examples.fresh).2 in
  execute Examples.counting JsonRpcP "crm.lead" "search" [Examples.test_domain; VDict []] st1
  = (Ret (VInt 101),
     State (self st1)
       (net st1 ++ [HttpPost "http://localhost:8069/jsonrpc"
                      (execute_payload (self st1) "crm.lead" "search"
                         [Examples.test_domain; VDict []] 1700000000)
                      (Some [])])).
Proof.
  apply (authentication_is_shared_between_protocols Examples.counting XmlRpcP JsonRpcP
           "crm.lead" "search" [Examples.test_domain; VDict []] Examples.fresh
           (xmlrpc_authenticate Examples.counting Examples.fresh).2 eq_refl).
  by left.
Defined.

(** X6. After a JSON-RPC login a call sends back the session cookie of
    the login answer, and an empty cookie dict when the answer set none or
    an empty one. *)
Theorem login_cookie_is_sent_with_every_call T st st1 model method args :
  jsonrpc_authenticate T st = (Ret true, st1) ->
  let o := requests_post T (net st) (jsonrpc_url (self st)) (login_payload (self st)) None in
  let cookies :=
    match session_cookie o with
    | Some c => if String.eqb c "" then [] else [("session_id", c)]
    | None => []
    end in
  net (jsonrpc_execute T model method args st1).2
  = net st1 ++ [HttpPost (jsonrpc_url (self st))
                  (execute_payload (self st1) model method args (time_time T (net st1)))
                  (Some cookies)].
Proof.
  intros Hauth. cbn zeta.
  pose proof (authenticate_success T JsonRpcP st st1 Hauth) as Hok.
  change (jsonrpc_execute T) with (execute T JsonRpcP).
  rewrite execute_authenticated by done. cbn [snd net wire_call].
  destruct (jsonrpc_authenticate_true T st st1 Hauth) as (r & _ & ->).
  cbn. unfold session_cookies. cbn.
  by destruct (session_cookie _) as [c|]; [destruct (String.eqb c "")|].
Qed.

Lemma login_cookie_is_sent_with_every_call_witness :
  let st1 := (jsonrpc_authenticate Examples.counting Examples.fresh).2 in
  net (jsonrpc_execute Examples.counting "crm.lead" "unlink" [VList [VInt 7]] st1).2
  = net st1 ++ [HttpPost "http://localhost:8069/jsonrpc"
                  (execute_payload (self st1) "crm.lead" "unlink" [VList [VInt 7]]
                     1700000000)
                  (Some [("session_id", "0f3a")])].
Proof.
  apply (login_cookie_is_sent_with_every_call Examples.counting Examples.fresh
           (jsonrpc_authenticate Examples.counting Examples.fresh).2
           "crm.lead" "unlink" [VList [VInt 7]]).
  reflexivity.
Defined.

(** *** Calls *)

(** X7. On an authenticated session [execute] returns what the server
    answered, unchanged, after exactly one request, and so do create,
    update and delete: update and delete return the server's value, which
    need not be a Boolean. *)
Theorem execute_returns_the_result_verbatim T p model method args lead_id lead_data st v :
  unauthenticated p (self st) = false ->
  (call_answers T p (self st) (net st) model method args v ->
   execute T p model method args st
   = (Ret v, State (self st)
               (net st ++ [wire_call T p (self st) (net st) model method args])))
  /\ (call_answers T p (self st) (net st) "crm.lead" "create" [VList [lead_data]] v ->
      (create_lead T p lead_data st).1 = Ret v)
  /\ (call_answers T p (self st) (net st) "crm.lead" "write"
        [VList [VInt lead_id]; lead_data] v ->
      (update_lead T p lead_id lead_data st).1 = Ret v)
  /\ (call_answers T p (self st) (net st) "crm.lead" "unlink" [VList [VInt lead_id]] v ->
      (delete_lead T p lead_id st).1 = Ret v).
Proof.
  intros Hauth.
  assert (forall model method args,
            call_answers T p (self st) (net st) model method args v ->
            wire_answer T p (self st) (net st) model method args = v) as Hanswer.
  { intros m meth a Hcall. destruct p; cbn in *; by rewrite Hcall. }
  split_and!; intros Hcall.
  - rewrite execute_authenticated by done. by rewrite (Hanswer _ _ _ Hcall).
  - rewrite create_lead_execute, execute_authenticated by done.
    cbn. by rewrite (Hanswer _ _ _ Hcall).
  - rewrite update_lead_execute, execute_authenticated by done.
    cbn. by rewrite (Hanswer _ _ _ Hcall).
  - rewrite delete_lead_execute, execute_authenticated by done.
    cbn. by rewrite (Hanswer _ _ _ Hcall).
Qed.

Lemma execute_returns_the_result_verbatim_witness :
  let st := (jsonrpc_authenticate Examples.agreeing Examples.fresh).2 in
  (update_lead Examples.agreeing JsonRpcP 7 (Examples.lead "B") st).1 = Ret (VBool true).
Proof.
  apply (execute_returns_the_result_verbatim Examples.agreeing JsonRpcP "" "" []
           7 (Examples.lead "B")
           (jsonrpc_authenticate Examples.agreeing Examples.fresh).2 (VBool true));
    reflexivity.
Defined.

Lemma append_cons c s t : String c s +:+ t = String c (s +:+ t).
Proof. done. Qed.

Lemma char_width_byte z :
  0 <= z < 256 ->
  char_width (Json.byte z)
  = if z <? 192 then 1%nat else if z <? 224 then 2%nat else if z <? 240 then 3%nat
    else 4%nat.
Proof.
  intros Hz. unfold char_width, Json.byte. rewrite nat_ascii_embedding by lia.
  repeat match goal with
         | |- context [(?a <? ?b)%nat] => destruct (Nat.ltb_spec a b)
         | |- context [?a <? ?b] => destruct (Z.ltb_spec a b)
         end; lia.
Qed.

Lemma first_char_utf8 cp rest :
  0 <= cp < 1114112 ->
  first_record (VStr (Json.utf8 cp +:+ rest)) = VStr (Json.utf8 cp).
Proof.
  intros Hcp. unfold Json.utf8.
  repeat match goal with
         | |- context [if ?a <? ?b then _ else _] => destruct (Z.ltb_spec a b)
         end.
  all: rewrite !append_cons; cbn [first_record]; unfold first_char.
  all: rewrite char_width_byte by (Z.div_mod_to_equations; lia).
  all: repeat match goal with
         | |- context [if ?a <? ?b then _ else _] => destruct (Z.ltb_spec a b);
             try (exfalso; Z.div_mod_to_equations; lia)
         end.
  all: reflexivity.
Qed.

(** X8. A read returns the first element of what its [read] call
    returned: the first record of a non-empty list, the first character of
    a non-empty string -- all the bytes of it, whatever its code point --
    and None for everything else. *)
Theorem read_lead_returns_the_first_record T p lead_id fields st v st' :
  execute T p "crm.lead" "read"
    [VList [VInt lead_id]; VDict [("fields", VList (default [] fields))]] st
  = (Ret v, st') ->
  read_lead T p lead_id fields st = (Ret (first_record v), st')
  /\ (forall x xs, v = VList (x :: xs) ->
      read_lead T p lead_id fields st = (Ret x, st'))
  /\ (forall cp rest, 0 <= cp < 1114112 -> v = VStr (Json.utf8 cp +:+ rest) ->
      read_lead T p lead_id fields st = (Ret (VStr (Json.utf8 cp)), st'))
  /\ (truthy v = false \/ (forall x xs, v <> VList (x :: xs)) /\ (forall s, v <> VStr s) ->
      read_lead T p lead_id fields st = (Ret VNone, st')).
Proof.
  intros E.
  assert (read_lead T p lead_id fields st = (Ret (first_record v), st')) as Hread.
  { unfold read_lead. unfold_eff.
    destruct fields as [fs|]; cbn in *; rewrite E; cbn.
    all: destruct v as [| [] | z | lit | [|c s] | [|x xs] | [|kv kvs]]; cbn; try done.
    all: repeat (case_step; simplify_eq; cbn in *; try done). }
  split_and!; [done| | |].
  - by intros x xs ->.
  - intros cp rest Hcp ->. by rewrite Hread, first_char_utf8.
  - rewrite Hread. intros [Hv|[Hlist Hstr]]; f_equal; f_equal.
    + by destruct v as [| [] | z | lit | [|c s] | [|x xs] | [|kv kvs]].
    + destruct v as [| [] | z | lit | s | [|x xs] | [|kv kvs]]; try done.
      * by destruct (Hstr s).
      * by destruct (Hlist x xs).
Qed.

Lemma read_lead_returns_the_first_record_witness :
  let st := (xmlrpc_authenticate Examples.half_open Examples.fresh).2 in
  exists st',
    read_lead Examples.half_open XmlRpcP 7 (Some [VStr "name"]) st = (Ret (VInt 7), st').
Proof.
  eexists.
  apply (read_lead_returns_the_first_record Examples.half_open XmlRpcP 7
           (Some [VStr "name"])
           (xmlrpc_authenticate Examples.half_open Examples.fresh).2 (VList [VInt 7])).
  reflexivity.
Defined.

(** X9. On an authenticated session each single-lead operation and each
    search is exactly one request, with the model crm.lead, its own method
    and its own arguments, and leaves the session as it is. *)
Theorem each_operation_is_one_call T p lead_id lead_data fields domain offset limit order st :
  unauthenticated p (self st) = false ->
  let sent model method args :=
    State (self st) (net st ++ [wire_call T p (self st) (net st) model method args]) in
  (create_lead T p lead_data st).2 = sent "crm.lead" "create" [VList [lead_data]]
  /\ (read_lead T p lead_id fields st).2
     = sent "crm.lead" "read"
         [VList [VInt lead_id]; VDict [("fields", VList (default [] fields))]]
  /\ (update_lead T p lead_id lead_data st).2
     = sent "crm.lead" "write" [VList [VInt lead_id]; lead_data]
  /\ (delete_lead T p lead_id st).2 = sent "crm.lead" "unlink" [VList [VInt lead_id]]
  /\ (search_leads T p domain offset limit order st).2
     = sent "crm.lead" "search" [domain; VDict (search_kwargs [] offset limit order)]
  /\ (search_read_leads T p domain fields offset limit order st).2
     = sent "crm.lead" "search_read"
         [domain; VDict (search_kwargs [("fields", VList (default [] fields))]
                           offset limit order)].
Proof.
  intros Hauth sent. unfold sent. split_and!.
  - by rewrite create_lead_execute, execute_authenticated.
  - destruct (read_lead_state T p lead_id fields st) as (v & ->).
    unfold read_args. by rewrite execute_authenticated.
  - by rewrite update_lead_execute, execute_authenticated.
  - by rewrite delete_lead_execute, execute_authenticated.
  - by rewrite search_leads_execute, execute_authenticated.
  - by rewrite search_read_leads_execute, execute_authenticated.
Qed.

Lemma each_operation_is_one_call_witness :
  let st := (xmlrpc_authenticate Examples.counting Examples.fresh).2 in
  (delete_lead Examples.counting XmlRpcP 7 st).2
  = State (self st)
      (net st ++ [XmlRpc "http://localhost:8069/xmlrpc/2/object" "execute_kw"
                    [VStr "odoo"; VInt 2; VStr "admin"; VStr "crm.lead"; VStr "unlink";
                     VList [VList [VInt 7]]]]).
Proof.
  apply (each_operation_is_one_call Examples.counting XmlRpcP 7 VNone None VNone VNone
           VNone VNone (xmlrpc_authenticate Examples.counting Examples.fresh).2).
  reflexivity.
Defined.

(** X10. A search always returns a value that has a length: what its
    call returned when that has a length, unchanged, and the empty list
    when it has none, as None and a number have none. *)
Theorem search_result_always_has_a_length T p domain fields offset limit order st :
  let search_args := [domain; VDict (search_kwargs [] offset limit order)] in
  let search_read_args :=
    [domain; VDict (search_kwargs [("fields", VList (default [] fields))]
                      offset limit order)] in
  (exists v n, (search_leads T p domain offset limit order st).1 = Ret v
               /\ py_len v = Ret n)
  /\ (exists v n, (search_read_leads T p domain fields offset limit order st).1 = Ret v
                  /\ py_len v = Ret n)
  /\ (forall w n st',
        execute T p "crm.lead" "search" search_args st = (Ret w, st') ->
        py_len w = Ret n ->
        search_leads T p domain offset limit order st = (Ret w, st'))
  /\ (forall w n st',
        execute T p "crm.lead" "search_read" search_read_args st = (Ret w, st') ->
        py_len w = Ret n ->
        search_read_leads T p domain fields offset limit order st = (Ret w, st'))
  /\ (forall w e st',
        execute T p "crm.lead" "search" search_args st = (Ret w, st') ->
        py_len w = Raise e ->
        search_leads T p domain offset limit order st = (Ret (VList []), st'))
  /\ (forall w e st',
        execute T p "crm.lead" "search_read" search_read_args st = (Ret w, st') ->
        py_len w = Raise e ->
        search_read_leads T p domain fields offset limit order st = (Ret (VList []), st'))
  /\ (exists w st', execute T p "crm.lead" "search" search_args st = (Ret w, st'))
  /\ (exists w st', execute T p "crm.lead" "search_read" search_read_args st = (Ret w, st')).
Proof.
  cbn zeta.
  assert (forall v, exists n, py_len (counted v) = Ret n) as Hcounted.
  { intros v. unfold counted. destruct (py_len v) eqn:E; [by eexists|by exists 0]. }
  split_and!.
  - rewrite search_leads_execute. cbn.
    destruct (execute T p _ _ _ st) as [[v|e] st']; cbn.
    + destruct (Hcounted v) as (n & Hn). eauto.
    + by exists (VList []), 0.
  - rewrite search_read_leads_execute. cbn.
    destruct (execute T p _ _ _ st) as [[v|e] st']; cbn.
    + destruct (Hcounted v) as (n & Hn). eauto.
    + by exists (VList []), 0.
  - intros w n st' E Hn. rewrite search_leads_execute, E. cbn. unfold counted.
    by rewrite Hn.
  - intros w n st' E Hn. rewrite search_read_leads_execute, E. cbn. unfold counted.
    by rewrite Hn.
  - intros w e st' E Hn. rewrite search_leads_execute, E. cbn. unfold counted.
    by rewrite Hn.
  - intros w e st' E Hn. rewrite search_read_leads_execute, E. cbn. unfold counted.
    by rewrite Hn.
  - apply execute_total.
  - apply execute_total.
Qed.

Lemma search_result_always_has_a_length_witness :
  (search_leads Examples.half_open XmlRpcP Examples.test_domain VNone VNone VNone
     Examples.fresh).1
  = Ret (VList [VInt 7])
  /\ (search_leads Examples.counting XmlRpcP Examples.test_domain VNone VNone VNone
        Examples.fresh).1
     = Ret (VList []).
Proof.
  destruct (search_result_always_has_a_length Examples.half_open XmlRpcP
              Examples.test_domain None VNone VNone VNone Examples.fresh)
    as (_ & _ & Hsame & _).
  destruct (search_result_always_has_a_length Examples.counting XmlRpcP
              Examples.test_domain None VNone VNone VNone Examples.fresh)
    as (_ & _ & _ & _ & Hnone & _).
  split.
  - erewrite Hsame; reflexivity.
  - erewrite Hnone; reflexivity.
Defined.

(** *** Requests made *)

Lemma log_after_length T p s model method argss log :
  length (log_after T p s model method argss log) = (length log + length argss)%nat.
Proof.
  revert log. induction argss as [|a argss IH]; intros log; cbn; [lia|].
  rewrite IH, length_app. cbn. lia.
Qed.

Lemma after_each_dispatches {A} T p (f : A -> M state value) model method
    (mk : A -> list value) xs st :
  (forall x st, f x st = execute T p model method (mk x) st) ->
  unauthenticated p (self st) = false ->
  after_each f xs st
    = State (self st) (log_after T p (self st) model method (mk <$> xs) (net st)).
Proof.
  intros Hf. revert st. induction xs as [|x xs IH]; intros st Hauth; cbn.
  - by destruct st.
  - rewrite Hf, execute_authenticated by done. cbn. by rewrite IH.
Qed.

(** X11. On an authenticated session a batch update and a batch delete
    send one request per item, in the order of the items, and nothing
    else; an identifier a batch delete is given twice is sent twice. *)
Theorem batch_on_an_authenticated_session_is_one_call_per_item
    T p leads_updates lead_ids st :
  unauthenticated p (self st) = false ->
  let after_update := (update_leads_batch T p leads_updates st).2 in
  let after_delete := (delete_leads_batch T p lead_ids st).2 in
  after_update
  = State (self st)
      (log_after T p (self st) "crm.lead" "write"
         ((fun x : Z * value => [VList [VInt x.1]; x.2]) <$> leads_updates) (net st))
  /\ after_delete
     = State (self st)
         (log_after T p (self st) "crm.lead" "unlink"
            ((fun i : Z => [VList [VInt i]]) <$> lead_ids) (net st))
  /\ length (net after_update) = (length (net st) + length leads_updates)%nat
  /\ length (net after_delete) = (length (net st) + length lead_ids)%nat.
Proof.
  intros Hauth. cbn zeta.
  destruct (update_leads_batch_run T p leads_updates st) as (m & -> & _).
  destruct (delete_leads_batch_run T p lead_ids st) as (m' & -> & _).
  cbn [snd].
  rewrite (after_each_dispatches T p _ "crm.lead" "write"
             (fun x : Z * value => [VList [VInt x.1]; x.2])) by
    (done || (intros x st0; apply update_lead_execute)).
  rewrite (after_each_dispatches T p _ "crm.lead" "unlink"
             (fun i : Z => [VList [VInt i]])) by
    (done || (intros x st0; apply delete_lead_execute)).
  cbn [net]. rewrite !log_after_length, !length_fmap. done.
Qed.

Lemma batch_on_an_authenticated_session_is_one_call_per_item_witness :
  let st := (jsonrpc_authenticate Examples.agreeing Examples.fresh).2 in
  length (net (delete_leads_batch Examples.agreeing JsonRpcP [4; 5; 6] st).2) = 4%nat.
Proof.
  apply (batch_on_an_authenticated_session_is_one_call_per_item Examples.agreeing
           JsonRpcP [] [4; 5; 6]
           (jsonrpc_authenticate Examples.agreeing Examples.fresh).2).
  reflexivity.
Defined.

Lemma at_most_refl st : at_most 0 st st.
Proof. exists []. by rewrite app_nil_r. Qed.

Lemma at_most_trans n m st1 st2 st3 :
  at_most n st1 st2 -> at_most m st2 st3 -> at_most (n + m) st1 st3.
Proof.
  intros (e1 & H1 & ?) (e2 & H2 & ?). exists (e1 ++ e2).
  rewrite H2, H1, app_assoc, length_app. split; [done|lia].
Qed.

Lemma at_most_le n m st st' : (n <= m)%nat -> at_most n st st' -> at_most m st st'.
Proof. intros ? (e & ? & ?). exists e. split; [done|lia]. Qed.

Lemma authenticate_at_most T p st : at_most 1 st (authenticate T p st).2.
Proof.
  destruct p; cbn [authenticate].
  - rewrite xmlrpc_authenticate_cases.
    repeat case_step; cbn;
      first [ by (exists []; rewrite app_nil_r; split; [done|cbn; lia])
            | by (eexists; split; [reflexivity|cbn; lia]) ].
  - rewrite jsonrpc_authenticate_cases.
    repeat case_step; cbn; by (eexists; split; [reflexivity|cbn; lia]).
Qed.

Lemma execute_at_most T p model method args st :
  at_most 2 st (execute T p model method args st).2.
Proof.
  destruct (unauthenticated p (self st)) eqn:Hun.
  - destruct (authenticate_total T p st) as (b & st1 & Hauth).
    rewrite (execute_unauthenticated T p model method args st b st1 Hun Hauth).
    pose proof (authenticate_at_most T p st) as H1. rewrite Hauth in H1. cbn in H1.
    destruct b; cbn.
    + apply (at_most_trans 1 1 st st1); [done|].
      eexists. split; [reflexivity|cbn; lia].
    + apply (at_most_le 1); [lia|done].
  - rewrite execute_authenticated by done. cbn.
    eexists. split; [reflexivity|cbn; lia].
Qed.

Lemma after_each_at_most {A} (f : A -> M state value) xs st :
  (forall x st, at_most 2 st (f x st).2) ->
  at_most (2 * length xs) st (after_each f xs st).
Proof.
  intros Hf. revert st. induction xs as [|x xs IH]; intros st; cbn [after_each length].
  - apply at_most_refl.
  - apply (at_most_le (2 + 2 * length xs)); [lia|].
    eapply at_most_trans; [apply Hf|apply IH].
Qed.

(** X12. No operation retries: it only appends to the request log, at
    most one request for authenticate and at most two requests for each
    item otherwise, the login and the call. *)
Theorem no_operation_retries T op st :
  exists extra,
    net (run T op st).2 = net st ++ extra
    /\ (length extra <= if is_authenticate op then 1 else 2 * items op)%nat.
Proof.
  change (at_most (if is_authenticate op then 1 else 2 * items op) st (run T op st).2).
  destruct op; cbn [run items is_authenticate]; rewrite (proj1 (void_run _ _)).
  - apply authenticate_at_most.
  - apply execute_at_most.
  - rewrite create_lead_execute. apply execute_at_most.
  - destruct (read_lead_state T p lead_id fields st) as (v & ->). apply execute_at_most.
  - rewrite update_lead_execute. apply execute_at_most.
  - rewrite delete_lead_execute. apply execute_at_most.
  - rewrite search_leads_execute. apply execute_at_most.
  - rewrite search_read_leads_execute. apply execute_at_most.
  - rewrite create_leads_batch_run. apply after_each_at_most.
    intros x st0. rewrite create_lead_execute. apply execute_at_most.
  - destruct (update_leads_batch_run T p leads_updates st) as (m & -> & _).
    apply after_each_at_most.
    intros x st0. rewrite update_lead_execute. apply execute_at_most.
  - destruct (delete_leads_batch_run T p lead_ids st) as (m & -> & _).
    apply after_each_at_most.
    intros x st0. rewrite delete_lead_execute. apply execute_at_most.
Qed.

Lemma created_truthy rs : Forall (fun v => truthy v = true) (created rs).
Proof.
  induction rs as [|[v|e] rs IH]; cbn; [done| |done].
  destruct (truthy v) eqn:Hv; [by constructor|done].
Qed.

Lemma created_length rs : (length (created rs) <= length rs)%nat.
Proof.
  induction rs as [|[v|e] rs IH]; cbn; [lia| |lia].
  destruct (truthy v); cbn; lia.
Qed.

Lemma created_all rs :
  length (created rs) = length rs <->
  Forall (fun o => exists v, o = Ret v /\ truthy v = true) rs.
Proof.
  induction rs as [|[v|e] rs IH]; cbn.
  - split; [by constructor|done].
  - pose proof (created_length rs). destruct (truthy v) eqn:Hv; cbn.
    + split.
      * intros [= H']. constructor; [by exists v|by apply IH].
      * intros H'. inversion H'; subst. f_equal. by apply IH.
    + split; [lia|]. intros H'. inversion H' as [|?? (v' & Heq & Ht)].
      simplify_eq. congruence.
  - pose proof (created_length rs). split; [lia|].
    intros H'. inversion H' as [|?? (v' & Heq & Ht)]. discriminate.
Qed.

(** X13. A batch create returns truthy identifiers only, never more than
    it was given leads, and as many as leads exactly when every single
    create returned a truthy value. *)
Theorem batch_create_returns_truthy_identifiers_only T p leads_data st :
  exists lead_ids,
    (create_leads_batch T p leads_data st).1 = Ret lead_ids
    /\ Forall (fun v => truthy v = true) lead_ids
    /\ (length lead_ids <= length leads_data)%nat
    /\ (length lead_ids = length leads_data <->
        Forall (fun o => exists v, o = Ret v /\ truthy v = true)
          (each_result (create_lead T p) leads_data st)).
Proof.
  rewrite create_leads_batch_run. eexists. split; [done|]. split_and!.
  - apply created_truthy.
  - rewrite <- (each_result_length (create_lead T p) leads_data st). apply created_length.
  - rewrite <- (each_result_length (create_lead T p) leads_data st).
    apply created_all.
Qed.

(** *** The search for the braced block *)

Lemma append_assoc s t u : (s +:+ t) +:+ u = s +:+ (t +:+ u).
Proof. induction s as [|c s IH]; [done|]. by rewrite !append_cons, IH. Qed.

Lemma upto_last_close_span s m :
  Chatbot.upto_last_close s = Some m ->
  exists b c, s = b +:+ String "}" c /\ m = b +:+ "}" /\ has_char "}" c = false.
Proof.
  revert m. induction s as [|x s IH]; cbn; intros m Hm; [done|].
  destruct (Chatbot.upto_last_close s) as [m'|] eqn:E.
  - injection Hm as <-. destruct (IH m' eq_refl) as (b & c & -> & -> & Hc).
    by exists (String x b), c.
  - destruct (Ascii.eqb_spec x "}") as [->|]; [|done]. injection Hm as <-.
    exists "", s. split_and!; [done|done|].
    clear IH. induction s as [|y s IH]; [done|]. cbn in *.
    destruct (Chatbot.upto_last_close s); [done|].
    destruct (Ascii.eqb y "}"); [done|]. by apply IH.
Qed.

Lemma re_search_needs_close s :
  Chatbot.upto_last_close s = None -> Chatbot.re_search s = None.
Proof.
  induction s as [|x s IH]; cbn; [done|].
  destruct (Chatbot.upto_last_close s); [done|]. intros _.
  rewrite IH by done. by destruct (Ascii.eqb x "{").
Qed.

Lemma re_search_span s m :
  Chatbot.re_search s = Some m ->
  exists a b c,
    s = a +:+ m +:+ c /\ m = String "{" (b +:+ "}")
    /\ has_char "{" a = false /\ has_char "}" c = false.
Proof.
  induction s as [|x s IH]; cbn; [done|].
  destruct (Ascii.eqb_spec x "{") as [->|Hx].
  - destruct (Chatbot.upto_last_close s) as [m'|] eqn:E.
    + intros [= <-]. destruct (upto_last_close_span s m' E) as (b & c & -> & -> & Hc).
      exists "", b, c. split_and!; try done.
      cbn. by rewrite append_cons, append_assoc.
    + by rewrite re_search_needs_close.
  - intros Hm. destruct (IH Hm) as (a & b & c & -> & -> & Ha & Hc).
    exists (String x a), b, c. split_and!; try done.
    cbn. rewrite Ha. by destruct (Ascii.eqb_spec x "{").
Qed.

(** X14. The text the extraction block decodes runs from the first
    opening brace of the reply to its last closing brace: no opening brace
    comes before it and no closing brace after it. *)
Theorem braced_block_runs_from_first_open_to_last_close text group0 :
  Chatbot.re_search text = Some group0 ->
  exists before inside after,
    text = before +:+ group0 +:+ after
    /\ group0 = String "{" (inside +:+ "}")
    /\ has_char "{" before = false
    /\ has_char "}" after = false.
Proof. apply re_search_span. Qed.

Lemma braced_block_runs_from_first_open_to_last_close_witness :
  exists before inside after,
    Chatbot.dq "no {'a': 1} and {'b': 2} yes" = before +:+ Chatbot.dq "{'a': 1} and {'b': 2}" +:+ after
    /\ Chatbot.dq "{'a': 1} and {'b': 2}" = String "{" (inside +:+ "}")
    /\ has_char "{" before = false
    /\ has_char "}" after = false.
Proof.
  apply (braced_block_runs_from_first_open_to_last_close
           (Chatbot.dq "no {'a': 1} and {'b': 2} yes")).
  reflexivity.
Defined.

(** *** The extraction block, case by case *)

Lemma lead_fields_pure extracted st :
  Chatbot.lead_fields extracted st
  = ((Chatbot.lead_fields extracted Examples.blank).1, st).
Proof.
  unfold Chatbot.lead_fields, bind, lift, ret. cbn.
  repeat (case_step; simplify_eq; cbn in *; try done).
Qed.

Lemma connect_and_create_cases cfg T x st :
  let common := Chatbot.odoo_url cfg +:+ "/xmlrpc/2/common" in
  let object := Chatbot.odoo_url cfg +:+ "/xmlrpc/2/object" in
  let auth := authenticate_call cfg in
  let done_with ev extra :=
    (Ret tt, Chatbot.State (Chatbot.lead_info st) (Chatbot.page st ++ [ev])
               (Chatbot.net st ++ extra)) in
  Chatbot.connect_and_create cfg T x st =
    match server_proxy T common with
    | Raise e => done_with (conn_error e) []
    | Ret _ =>
        match xmlrpc_call T (Chatbot.net st) common "authenticate"
                [VStr (Chatbot.odoo_db cfg); VStr (Chatbot.odoo_username cfg);
                 VStr (Chatbot.odoo_password cfg); VDict []] with
        | Raise e => done_with (conn_error e) [auth]
        | Ret uid =>
            if truthy uid then
              match server_proxy T object with
              | Raise e => done_with (conn_error e) [auth]
              | Ret _ =>
                  match (Chatbot.lead_fields x Examples.blank).1 with
                  | Raise e => done_with (conn_error e) [auth]
                  | Ret fields =>
                      match create_outcome T cfg (Chatbot.net st ++ [auth]) uid fields with
                      | Ret lead_id =>
                          done_with
                            (Chatbot.st_success
                               "Lead created successfully in Odoo! Lead ID: " lead_id)
                            [auth; create_call cfg uid fields]
                      | Raise e =>
                          done_with (conn_error e) [auth; create_call cfg uid fields]
                      end
                  end
              end
            else
              done_with
                (Chatbot.st_error
                   "Odoo authentication failed. Please check credentials." None)
                [auth]
        end
    end.
Proof.
  cbn zeta. destruct st as [info page log].
  unfold Chatbot.connect_and_create, try_except, bind, Chatbot.ServerProxy,
    Chatbot.proxy_call, Chatbot.show, modify, ret, authenticate_call, create_call,
    create_outcome.
  cbn -[Chatbot.lead_fields marshal_error].
  change (marshal_error
            (VList [VStr (Chatbot.odoo_db cfg); VStr (Chatbot.odoo_username cfg);
                    VStr (Chatbot.odoo_password cfg); VDict []])) with (@None exn).
  repeat (case_step;
          try match goal with
              | H : Chatbot.lead_fields _ _ = _ |- _ => rewrite lead_fields_pure in H
              end;
          simplify_eq; cbn -[Chatbot.lead_fields marshal_error] in *; try done;
          try (by rewrite ?app_nil_r, <- ?app_assoc)).
Qed.

Lemma connect_and_create_total cfg T x st :
  exists st', Chatbot.connect_and_create cfg T x st = (Ret tt, st').
Proof.
  rewrite connect_and_create_cases. cbn zeta. repeat case_step; by eexists.
Qed.

Lemma extract_and_create_cases cfg T G context st :
  Chatbot.extract_and_create cfg T G context st =
    match G (Chatbot.extract_prompt context) with
    | Raise e => (Ret tt, shows st (extract_error e))
    | Ret text =>
        match Chatbot.re_search text with
        | None =>
            (Ret tt, shows st (Chatbot.st_error "Failed to extract information." None))
        | Some group0 =>
            match Json.loads group0 with
            | Raise e => (Ret tt, shows st (extract_error e))
            | Ret extracted =>
                Chatbot.connect_and_create cfg T extracted
                  (Chatbot.State extracted (Chatbot.page st) (Chatbot.net st))
            end
        end
    end.
Proof.
  unfold Chatbot.extract_and_create, try_except, bind at 1, lift at 1.
  destruct (G _) as [text|e]; [|done].
  destruct (Chatbot.re_search text) as [group0|]; [|done].
  unfold bind at 1, lift at 1. destruct (Json.loads group0) as [x|e]; [|done].
  unfold bind at 1, Chatbot.set_lead_info, modify. cbn [fst snd].
  by destruct (connect_and_create_total cfg T x
                 (Chatbot.State x (Chatbot.page st) (Chatbot.net st))) as (st' & ->).
Qed.

Lemma lead_fields_value d :
  (Chatbot.lead_fields (VDict d) Examples.blank).1
  = match default (VStr "New Lead") (dict_get "name" d) with
    | VStr name => Ret (fields_of d name)
    | _ => Raise (TypeError "unsupported operand type(s) for +")
    end.
Proof.
  unfold Chatbot.lead_fields, fields_of, bind, lift, ret. cbn.
  destruct (dict_get "name" d) as [[]|]; cbn; try done.
Qed.

(** X15. The extraction block never raises and shows exactly one message.
    It sends no request, the login only, or the login and one create; it
    sends the create only after a truthy answer to the login, and every
    other outcome shows an error. *)
Theorem extraction_block_shows_one_message cfg T G context st :
  exists info ev extra,
    Chatbot.extract_and_create cfg T G context st
    = (Ret tt, Chatbot.State info (Chatbot.page st ++ [ev]) (Chatbot.net st ++ extra))
    /\ ((extra = [] /\ is_error ev = true)
        \/ (extra = [authenticate_call cfg] /\ is_error ev = true)
        \/ (exists uid fields,
              extra = [authenticate_call cfg; create_call cfg uid fields]
              /\ xmlrpc_call T (Chatbot.net st)
                   (Chatbot.odoo_url cfg +:+ "/xmlrpc/2/common") "authenticate"
                   [VStr (Chatbot.odoo_db cfg); VStr (Chatbot.odoo_username cfg);
                    VStr (Chatbot.odoo_password cfg); VDict []] = Ret uid
              /\ truthy uid = true)).
Proof.
  rewrite extract_and_create_cases.
  destruct (G _) as [text|e].
  2: { exists (Chatbot.lead_info st), (extract_error e), [].
       cbn. rewrite app_nil_r. split; [done|by left]. }
  destruct (Chatbot.re_search text) as [group0|].
  2: { eexists (Chatbot.lead_info st), _, []. cbn. rewrite app_nil_r.
       split; [done|by left]. }
  destruct (Json.loads group0) as [x|e].
  2: { exists (Chatbot.lead_info st), (extract_error e), [].
       cbn. rewrite app_nil_r. split; [done|by left]. }
  rewrite connect_and_create_cases. cbn zeta.
  repeat (case_step; cbn [Chatbot.page Chatbot.net Chatbot.lead_info]).
  all: eexists _, _, _; (split; [reflexivity|]); cbn.
  all: first [ by left | by right; left | right; right; by eexists _, _ ].
Qed.

(** X16. When the generation raises, or the braced block is not valid
    JSON, the block shows the extraction error with the text of the
    exception, keeps the lead info and sends nothing. *)
Theorem failure_before_the_connection_changes_nothing cfg T G context st e :
  G (Chatbot.extract_prompt context) = Raise e
  \/ (exists text group0,
        G (Chatbot.extract_prompt context) = Ret text
        /\ Chatbot.re_search text = Some group0
        /\ Json.loads group0 = Raise e) ->
  Chatbot.extract_and_create cfg T G context st
  = (Ret tt,
     Chatbot.State (Chatbot.lead_info st)
       (Chatbot.page st ++ [Chatbot.st_error "Error extracting information: " (Some e)])
       (Chatbot.net st)).
Proof.
  rewrite extract_and_create_cases.
  intros [->|(text & group0 & -> & -> & ->)]; done.
Qed.

Lemma failure_before_the_connection_changes_nothing_witness :
  Chatbot.extract_and_create Examples.sidebar Examples.counting
    (fun _ => Ret (Chatbot.dq "{'name': 'Al'} and {'name': 'Bo'}")) "user: Hi"
    Examples.blank
  = (Ret tt,
     Chatbot.State VNone
       [Chatbot.st_error "Error extracting information: "
          (Some (Json.JSONDecodeError "Extra data"))] []).
Proof.
  apply (failure_before_the_connection_changes_nothing Examples.sidebar Examples.counting
           (fun _ => Ret (Chatbot.dq "{'name': 'Al'} and {'name': 'Bo'}")) "user: Hi"
           Examples.blank (Json.JSONDecodeError "Extra data")).
  right. eexists _, _. split_and!; reflexivity.
Defined.

(** X17. The decoded object is stored as lead info before the connection
    is tried: it stays stored when the login is rejected, in which case
    the authentication error is shown after the one login request. *)
Theorem lead_info_is_stored_before_the_connection cfg T G context st text group0 extracted :
  G (Chatbot.extract_prompt context) = Ret text ->
  Chatbot.re_search text = Some group0 ->
  Json.loads group0 = Ret extracted ->
  let st' := (Chatbot.extract_and_create cfg T G context st).2 in
  Chatbot.lead_info st' = extracted
  /\ (forall uid,
        server_proxy T (Chatbot.odoo_url cfg +:+ "/xmlrpc/2/common") = Ret tt ->
        xmlrpc_call T (Chatbot.net st)
          (Chatbot.odoo_url cfg +:+ "/xmlrpc/2/common") "authenticate"
          [VStr (Chatbot.odoo_db cfg); VStr (Chatbot.odoo_username cfg);
           VStr (Chatbot.odoo_password cfg); VDict []] = Ret uid ->
        truthy uid = false ->
        Chatbot.page st'
        = Chatbot.page st
            ++ [Chatbot.st_error "Odoo authentication failed. Please check credentials."
                  None]
        /\ Chatbot.net st' = Chatbot.net st ++ [authenticate_call cfg]).
Proof.
  intros HG Hsearch Hloads. cbn zeta.
  rewrite extract_and_create_cases, HG, Hsearch, Hloads. split.
  - apply connect_and_create_lead_info.
  - intros uid Hproxy Hcall Huid. rewrite connect_and_create_cases. cbn zeta.
    cbn [Chatbot.net]. by rewrite Hproxy, Hcall, Huid.
Qed.

Lemma lead_info_is_stored_before_the_connection_witness :
  let st' := (Chatbot.extract_and_create Examples.sidebar Examples.rejecting
                (fun _ => Ret Examples.alice_reply) "user: Hi" Examples.blank).2 in
  Chatbot.lead_info st' = Examples.alice
  /\ Chatbot.page st'
     = [Chatbot.st_error "Odoo authentication failed. Please check credentials." None]
  /\ Chatbot.net st' = [authenticate_call Examples.sidebar].
Proof.
  destruct (lead_info_is_stored_before_the_connection Examples.sidebar Examples.rejecting
              (fun _ => Ret Examples.alice_reply) "user: Hi" Examples.blank
              Examples.alice_reply
              (Chatbot.dq "{'name':'Alice','email':'a@x.com','phone':null,'requirements':'CRM demo'}")
              Examples.alice eq_refl eq_refl eq_refl) as [Hinfo Hrej].
  split; [exact Hinfo|].
  apply (Hrej (VBool false)); reflexivity.
Defined.

(** X18. When the login is accepted and the name extracted is a string,
    or absent, the block makes one create call on the object proxy, for a
    lead whose name is the name followed by Lead (New Lead Lead without a
    name) and whose four other fields are read from the object, None for
    a missing key.  The proxy is built without allow_none: when the name,
    the email, the phone or the requirements is null or missing, the
    client raises before anything is sent, whatever the server would
    answer, and the connection error is shown; no lead is created.  When
    the uid and the fields can be marshalled the call reaches the server,
    and the message shown is the success with the identifier returned, or
    the connection error when the call raises. *)
Theorem created_lead_carries_the_extracted_fields
    cfg T G context st text group0 d uid name :
  let common := Chatbot.odoo_url cfg +:+ "/xmlrpc/2/common" in
  let object := Chatbot.odoo_url cfg +:+ "/xmlrpc/2/object" in
  G (Chatbot.extract_prompt context) = Ret text ->
  Chatbot.re_search text = Some group0 ->
  Json.loads group0 = Ret (VDict d) ->
  server_proxy T common = Ret tt ->
  server_proxy T object = Ret tt ->
  xmlrpc_call T (Chatbot.net st) common "authenticate"
    [VStr (Chatbot.odoo_db cfg); VStr (Chatbot.odoo_username cfg);
     VStr (Chatbot.odoo_password cfg); VDict []] = Ret uid ->
  truthy uid = true ->
  default (VStr "New Lead") (dict_get "name" d) = VStr name ->
  let st' := (Chatbot.extract_and_create cfg T G context st).2 in
  let fields :=
    VDict [("name", VStr (name +:+ " Lead"));
           ("contact_name", default VNone (dict_get "name" d));
           ("email_from", default VNone (dict_get "email" d));
           ("phone", default VNone (dict_get "phone" d));
           ("description", default VNone (dict_get "requirements" d))] in
  let log := Chatbot.net st ++ [authenticate_call cfg] in
  Chatbot.net st' = log ++ [create_call cfg uid fields]
  /\ Chatbot.page st'
     = Chatbot.page st
         ++ [match create_outcome T cfg log uid fields with
             | Ret lead_id =>
                 Chatbot.st_success "Lead created successfully in Odoo! Lead ID: " lead_id
             | Raise e => Chatbot.st_error "Error connecting to Odoo: " (Some e)
             end]
  /\ (forall key, key ∈ ["name"; "email"; "phone"; "requirements"] ->
      default VNone (dict_get key d) = VNone ->
      exists e,
        (forall T' log', create_outcome T' cfg log' uid fields = Raise e)
        /\ Chatbot.page st'
           = Chatbot.page st ++ [Chatbot.st_error "Error connecting to Odoo: " (Some e)])
  /\ (marshal_error uid = None -> marshal_error fields = None ->
      create_outcome T cfg log uid fields
      = xmlrpc_call T log object "execute_kw"
          [VStr (Chatbot.odoo_db cfg); uid; VStr (Chatbot.odoo_password cfg);
           VStr "crm.lead"; VStr "create"; VList [fields]]).
Proof.
  cbn zeta. intros HG Hsearch Hloads Hcommon Hobject Hauth Huid Hname.
  rewrite extract_and_create_cases, HG, Hsearch, Hloads.
  rewrite connect_and_create_cases. cbn zeta. cbn [Chatbot.net Chatbot.page].
  rewrite Hcommon, Hauth, Huid, Hobject, lead_fields_value, Hname.
  change (fields_of d name) with
    (VDict [("name", VStr (name +:+ " Lead"));
            ("contact_name", default VNone (dict_get "name" d));
            ("email_from", default VNone (dict_get "email" d));
            ("phone", default VNone (dict_get "phone" d));
            ("description", default VNone (dict_get "requirements" d))]).
  set (fields := VDict _).
  assert (forall key, key ∈ ["name"; "email"; "phone"; "requirements"] ->
          default VNone (dict_get key d) = VNone ->
          exists e, forall T' log', create_outcome T' cfg log' uid fields = Raise e)
    as Hblocked.
  { intros key Hkey Hnone. unfold create_outcome, fields.
    destruct (marshal_error
                (VList [VStr (Chatbot.odoo_db cfg); uid; VStr (Chatbot.odoo_password cfg);
                        VStr "crm.lead"; VStr "create";
                        VList [VDict
                                 [("name", VStr (name +:+ " Lead"));
                                  ("contact_name", default VNone (dict_get "name" d));
                                  ("email_from", default VNone (dict_get "email" d));
                                  ("phone", default VNone (dict_get "phone" d));
                                  ("description",
                                   default VNone (dict_get "requirements" d))]]]))
      as [e|] eqn:E; [by exists e|].
    exfalso. revert E. cbn.
    repeat (apply elem_of_cons in Hkey as [->|Hkey]); [..|by apply elem_of_nil in Hkey];
      rewrite Hnone; cbn; by repeat case_step. }
  split_and!.
  - by destruct (create_outcome _ _ _ _ _); rewrite <- app_assoc.
  - by destruct (create_outcome _ _ _ _ _).
  - intros key Hkey Hnone. destruct (Hblocked key Hkey Hnone) as (e & He).
    exists e. split; [done|]. by rewrite He.
  - unfold create_outcome. cbn. intros -> Hfields. cbn in Hfields.
    by rewrite Hfields.
Qed.

Lemma created_lead_carries_the_extracted_fields_witness :
  let full :=
    Chatbot.dq "{'name':'Bob','email':'b@x.com','phone':'555','requirements':'CRM demo'}" in
  let created :=
    (Chatbot.extract_and_create Examples.sidebar Examples.counting
       (fun _ => Ret full) "user: Hi" Examples.blank).2 in
  let blocked :=
    (Chatbot.extract_and_create Examples.sidebar Examples.counting
       (fun _ => Ret Examples.alice_reply) "user: Hi" Examples.blank).2 in
  Chatbot.page created
  = [Chatbot.st_success "Lead created successfully in Odoo! Lead ID: " (VInt 101)]
  /\ Chatbot.page blocked
     = [Chatbot.st_error "Error connecting to Odoo: "
          (Some (TypeError "cannot marshal None unless allow_none is enabled"))].
Proof.
  cbn zeta. split.
  - destruct (created_lead_carries_the_extracted_fields Examples.sidebar Examples.counting
                (fun _ => Ret (Chatbot.dq "{'name':'Bob','email':'b@x.com','phone':'555','requirements':'CRM demo'}"))
                "user: Hi" Examples.blank
                (Chatbot.dq "{'name':'Bob','email':'b@x.com','phone':'555','requirements':'CRM demo'}")
                (Chatbot.dq "{'name':'Bob','email':'b@x.com','phone':'555','requirements':'CRM demo'}")
                [("name", VStr "Bob"); ("email", VStr "b@x.com"); ("phone", VStr "555");
                 ("requirements", VStr "CRM demo")]
                (VInt 2) "Bob" eq_refl eq_refl eq_refl eq_refl eq_refl eq_refl eq_refl
                eq_refl) as (_ & Hpage & _ & _).
    rewrite Hpage. reflexivity.
  - destruct (created_lead_carries_the_extracted_fields Examples.sidebar Examples.counting
                (fun _ => Ret Examples.alice_reply) "user: Hi" Examples.blank
                Examples.alice_reply
                (Chatbot.dq "{'name':'Alice','email':'a@x.com','phone':null,'requirements':'CRM demo'}")
                [("name", VStr "Alice"); ("email", VStr "a@x.com"); ("phone", VNone);
                 ("requirements", VStr "CRM demo")]
                (VInt 2) "Alice" eq_refl eq_refl eq_refl eq_refl eq_refl eq_refl eq_refl
                eq_refl) as (_ & _ & Hblocked & _).
    destruct (Hblocked "phone") as (e & He & Hpage);
      [repeat constructor|reflexivity|].
    rewrite Hpage. specialize (He Examples.counting []). injection He as <-.
    reflexivity.
Defined.

(** X19. When the object decoded has a name that is not a string, null
    included, no lead is created although the login was accepted: building
    the lead name raises a TypeError, which is shown as a connection
    error, and the object stays stored as lead info. *)
Theorem name_that_is_not_a_string_blocks_the_creation
    cfg T G context st text group0 d uid :
  let common := Chatbot.odoo_url cfg +:+ "/xmlrpc/2/common" in
  let object := Chatbot.odoo_url cfg +:+ "/xmlrpc/2/object" in
  G (Chatbot.extract_prompt context) = Ret text ->
  Chatbot.re_search text = Some group0 ->
  Json.loads group0 = Ret (VDict d) ->
  server_proxy T common = Ret tt ->
  server_proxy T object = Ret tt ->
  xmlrpc_call T (Chatbot.net st) common "authenticate"
    [VStr (Chatbot.odoo_db cfg); VStr (Chatbot.odoo_username cfg);
     VStr (Chatbot.odoo_password cfg); VDict []] = Ret uid ->
  truthy uid = true ->
  (exists v, dict_get "name" d = Some v /\ forall name, v <> VStr name) ->
  let st' := (Chatbot.extract_and_create cfg T G context st).2 in
  Chatbot.net st' = Chatbot.net st ++ [authenticate_call cfg]
  /\ (exists e,
        exn_class e = "TypeError"
        /\ Chatbot.page st'
           = Chatbot.page st ++ [Chatbot.st_error "Error connecting to Odoo: " (Some e)])
  /\ Chatbot.lead_info st' = VDict d.
Proof.
  cbn zeta. intros HG Hsearch Hloads Hcommon Hobject Hauth Huid (v & Hv & Hname).
  rewrite extract_and_create_cases, HG, Hsearch, Hloads.
  rewrite connect_and_create_cases. cbn zeta. cbn [Chatbot.net Chatbot.page].
  rewrite Hcommon, Hauth, Huid, Hobject, lead_fields_value, Hv. cbn.
  destruct v as [| b | z | lit | name | xs | kvs];
    try (split_and!; [done|eexists; split; [|reflexivity]; reflexivity|done]).
  by destruct (Hname name).
Qed.

Lemma name_that_is_not_a_string_blocks_the_creation_witness :
  let st' := (Chatbot.extract_and_create Examples.sidebar Examples.counting
                (fun _ => Ret (Chatbot.dq "{'name': null, 'email': 'a@x.com'}"))
                "user: Hi" Examples.blank).2 in
  Chatbot.net st' = [authenticate_call Examples.sidebar]
  /\ (exists e,
        exn_class e = "TypeError"
        /\ Chatbot.page st' = [Chatbot.st_error "Error connecting to Odoo: " (Some e)])
  /\ Chatbot.lead_info st' = VDict [("name", VNone); ("email", VStr "a@x.com")].
Proof.
  apply (name_that_is_not_a_string_blocks_the_creation Examples.sidebar Examples.counting
           (fun _ => Ret (Chatbot.dq "{'name': null, 'email': 'a@x.com'}"))
           "user: Hi" Examples.blank
           (Chatbot.dq "{'name': null, 'email': 'a@x.com'}")
           (Chatbot.dq "{'name': null, 'email': 'a@x.com'}")
           [("name", VNone); ("email", VStr "a@x.com")] (VInt 2));
    try reflexivity.
  exists VNone. split; [reflexivity|discriminate].
Defined.

(** *** The object decoded *)

Lemma scan_members_object fuel : forall acc s v rest,
  Json.scan_members fuel acc s = Ret (v, rest) -> exists d, v = VDict d.
Proof.
  induction fuel as [|fuel IH]; intros acc s v rest; cbn; [done|].
  repeat (case_step; simplify_eq; try done).
  - intros [= <- <-]. by eexists.
  - apply IH.
Qed.

Lemma loads_object r v :
  Json.loads (String "{" r) = Ret v -> exists d, v = VDict d.
Proof.
  unfold Json.loads.
  change (Json.skip_ws (String "{" r)) with (String "{" r).
  destruct (Json.scan_once _ _) as [[w rest]|e] eqn:E; [|done].
  assert (exists d, w = VDict d) as (d & ->).
  { revert E. cbn -[Nat.mul].
    repeat (case_step; simplify_eq; try done).
    all: first [ by (intros [= <- <-]; eexists) | apply scan_members_object ]. }
  destruct (Json.skip_ws rest); [|done]. intros [= <-]. by eexists.
Qed.

(** X20. Whatever the service generates, the lead info after the block is
    the one before it or a JSON object, never a list, a string or a
    number. *)
Theorem lead_info_is_kept_or_becomes_an_object cfg T G context st :
  let st' := (Chatbot.extract_and_create cfg T G context st).2 in
  Chatbot.lead_info st' = Chatbot.lead_info st
  \/ exists d, Chatbot.lead_info st' = VDict d.
Proof.
  cbn zeta. rewrite extract_and_create_cases.
  destruct (G _) as [text|e]; [|by left].
  destruct (Chatbot.re_search text) as [group0|] eqn:Hsearch; [|by left].
  destruct (Json.loads group0) as [x|e] eqn:Hloads; [|by left].
  right. rewrite connect_and_create_lead_info. cbn.
  destruct (re_search_span text group0 Hsearch) as (a & b & c & _ & -> & _).
  by apply loads_object in Hloads.
Qed.

(** *** A run of the script *)

Import Assistant.










(** *** The prompt *)









